(** * pg-filecommenter-sourcemap: a shallow embedding and its properties

    The module annotates every query sent through a [pg] pool with an SQL
    comment naming the call site, resolved through a source map when one
    lies next to the compiled file.  This development embeds the functions
    of [pg-filecommenter-sourcemap.js] one by one

      - [loadSourceMapForFile]       (the memoised source map cache),
      - [getCallerFrame]             (stack inspection),
      - [resolveOriginalPosition]    (compiled position -> original one),
      - [addFileCommentToQuery]      (comment injection),
      - [patchedQuery]               (the wrapper installed on [pool.query]),

    and states the properties of the specification against them.

    Conventions.  A JavaScript string is the list of its UTF-16 code units
    ([list N]); [str] turns a literal into one.  Mutable state (the cache,
    [Error.prepareStackTrace], the objects reachable from a query) is
    threaded explicitly through a state and exception monad [M]; what a
    call obtains from outside (the captured stack, the file system, the
    source-map parser) is gathered in a record [env], and the wrapped
    [pool.query] is a parameter of the wrapper.  An [await] is a sequencing
    point: every call runs to completion on the state it is given; a
    promise is represented by the way it settles. *)

From Stdlib Require Import ZArith NArith List Bool Lia.
From Stdlib Require Import Strings.String Strings.Ascii Numbers.DecimalString.
From stdpp Require Import base option list gmap.
Import ListNotations.

Local Open Scope N_scope.
Local Open Scope list_scope.

(* ===================================================================== *)
(** ** JavaScript strings *)
(* ===================================================================== *)

Abbreviation jsstring := (list N).

(** A literal, as code units (the literals of the module are ASCII). *)
Definition str (s : string) : jsstring :=
  map N_of_ascii (list_ascii_of_string s).

Definition semicolon : N := 59.
Definition slash : N := 47.

(** White space and line terminators: what [String.prototype.trim] strips. *)
Definition is_white_space (c : N) : bool :=
  match c with
  | 9 | 10 | 11 | 12 | 13 | 32 | 160 | 5760
  | 8232 | 8233 | 8239 | 8287 | 12288 | 65279 => true
  | _ => (8192 <=? c) && (c <=? 8202)
  end.

Fixpoint trimStart (s : jsstring) : jsstring :=
  match s with
  | c :: s' => if is_white_space c then trimStart s' else s
  | [] => []
  end.

Definition trimEnd (s : jsstring) : jsstring := rev (trimStart (rev s)).

(** [s.trim()] *)
Definition trim (s : jsstring) : jsstring := trimEnd (trimStart s).

(** [s.startsWith(p)] *)
Fixpoint startsWith (s p : jsstring) : bool :=
  match p, s with
  | [], _ => true
  | a :: p', c :: s' => (a =? c) && startsWith s' p'
  | _ :: _, [] => false
  end.

(** [s.endsWith(p)] *)
Definition endsWith (s p : jsstring) : bool := startsWith (rev s) (rev p).

(** [s.includes(p)] *)
Fixpoint includes (s p : jsstring) : bool :=
  startsWith s p ||
  match s with
  | [] => false
  | _ :: s' => includes s' p
  end.

(** [s.slice(0, -1)]: everything but the last code unit. *)
Definition slice_0_m1 (s : jsstring) : jsstring := removelast s.

(** [s.replace(/;?$/, '')].  The pattern has no [g] flag, so the leftmost
    match is replaced: scanning from the left, [;?$] matches at the first
    index that holds a [;] which is the last code unit, or else at the end
    of the input (the empty match). *)
Fixpoint replace_semi_at_end (s : jsstring) : jsstring :=
  match s with
  | [] => []
  | c :: s' =>
      if (c =? semicolon) && (match s' with [] => true | _ => false end)
      then []
      else c :: replace_semi_at_end s'
  end.

(** [String(n)] for an integer [n] (below 1e21, where JavaScript still
    prints every digit). *)
Definition number_to_string (z : Z) : jsstring :=
  str (NilZero.string_of_int (Z.to_int z)).

(** Number of indices at which [p] occurs in [s]. *)
Fixpoint count_occurrences (p s : jsstring) : nat :=
  match s with
  | [] => 0%nat
  | _ :: s' => ((if startsWith s p then 1 else 0) + count_occurrences p s')%nat
  end.

(* ===================================================================== *)
(** ** [path.basename] (POSIX flavour, one argument) *)
(* ===================================================================== *)

Fixpoint drop_slashes (s : jsstring) : jsstring :=
  match s with
  | c :: s' => if c =? slash then drop_slashes s' else s
  | [] => []
  end.

Fixpoint upto_slash (s : jsstring) : jsstring :=
  match s with
  | c :: s' => if c =? slash then [] else c :: upto_slash s'
  | [] => []
  end.

(** Node walks the path from its end: trailing separators are skipped, and
    the result runs from there back to the separator before it. *)
Definition basename (p : jsstring) : jsstring :=
  rev (upto_slash (drop_slashes (rev p))).

(* ===================================================================== *)
(** ** Values, objects and the store *)
(* ===================================================================== *)

Abbreviation loc := positive.

Inductive error_kind := TypeError | RangeError | OtherError (n : nat).

Inductive fn :=
| FnRawFrames            (* the handler [(_, stack) => stack] of the module *)
| FnUser (n : nat).      (* any other function *)

(** Numbers are integers here: an integer is all the module ever computes
    with (line and column numbers). *)
Inductive value :=
| VUndefined
| VNull
| VBool (b : bool)
| VNumber (z : Z)
| VString (s : jsstring)
| VFunction (f : fn)
| VObject (l : loc)
| VError (k : error_kind).

Inductive js_type :=
| TUndefined | TObject | TBoolean | TNumber | TString | TFunction.

Definition typeof (v : value) : js_type :=
  match v with
  | VUndefined => TUndefined
  | VNull => TObject
  | VBool _ => TBoolean
  | VNumber _ => TNumber
  | VString _ => TString
  | VFunction _ => TFunction
  | VObject _ | VError _ => TObject
  end.

Definition is_function (v : value) : bool :=
  match typeof v with TFunction => true | _ => false end.

Definition is_object_type (v : value) : bool :=
  match typeof v with TObject => true | _ => false end.

Definition is_empty (s : jsstring) : bool :=
  match s with [] => true | _ => false end.

(** ToBoolean *)
Definition truthy (v : value) : bool :=
  match v with
  | VUndefined | VNull => false
  | VBool b => b
  | VNumber z => negb (z =? 0)%Z
  | VString s => negb (is_empty s)
  | VFunction _ | VObject _ | VError _ => true
  end.

(** An object of the store: its own data properties, and its elements when
    it is an array.  Objects are records of data; accessors, proxies and
    methods of their own are outside the model. *)
Record object := {
  elements : option (list value);
  props : gmap jsstring value
}.

Definition empty_object : object := {| elements := None; props := ∅ |}.

(** How a computation ends: with a value, or by throwing ([Throw] is also
    the rejection of the promise of an [async] function). *)
Inductive outcome (A : Type) :=
| Return (a : A)
| Throw (e : value).
Arguments Return {A} a.
Arguments Throw {A} e.

(** What [SourceMapConsumer.originalPositionFor] answers. *)
Record original_position := {
  op_source : option jsstring;      (* [None] is [null] *)
  op_line : option Z;
  op_column : option Z
}.

(** A parsed source map, seen through the one method the module calls. *)
Record consumer := {
  originalPositionFor : Z -> Z -> outcome (option original_position)
}.

(** A [CallSite] of the V8 stack trace API. *)
Record CallSite := {
  getFileName : option jsstring;     (* [None] is [null] or [undefined] *)
  getLineNumber : option Z;
  getColumnNumber : option Z
}.

(** The object [getCallerFrame] returns. *)
Record Frame := {
  fileName : jsstring;
  line : option Z;
  column : option Z
}.

Inductive event :=
| EExists (path : jsstring)                 (* fs.existsSync *)
| ERead (path : jsstring)                   (* fs.readFileSync *)
| EParse (rawMap : jsstring)                (* new SourceMapConsumer *)
| EOrigQuery (args : list value)            (* origQuery.call(pool, ...) *)
| ECallback (f : fn) (args : list value)    (* callback(...) *)
| EUnhandledRejection (e : value).

(** The state of the process that the module reads and writes. *)
Record state := {
  sourceMapCache : gmap jsstring (option consumer);
  prepareStackTrace : value;                (* Error.prepareStackTrace *)
  heap : gmap loc object;
  log : list event                          (* oldest first *)
}.

(** What one call obtains from outside the module. *)
Record env := {
  capture : outcome (list CallSite);
     (* [new Error()], [Error.captureStackTrace(err, getCallerFrame)] and
        [err.stack], innermost frame first *)
  existsSync : jsstring -> bool;
  readFileSync : jsstring -> outcome jsstring;
  newSourceMapConsumer : jsstring -> outcome consumer
}.

(* ===================================================================== *)
(** ** The state and exception monad *)
(* ===================================================================== *)

Definition M (A : Type) : Type := state -> outcome A * state.

Definition ret {A} (a : A) : M A := fun s => (Return a, s).

Definition throw {A} (e : value) : M A := fun s => (Throw e, s).

Definition bind {A B} (c : M A) (k : A -> M B) : M B :=
  fun s =>
    match c s with
    | (Return a, s') => k a s'
    | (Throw e, s') => (Throw e, s')
    end.

(** [try { c } catch (e) { h e }] *)
Definition try_catch {A} (c : M A) (h : value -> M A) : M A :=
  fun s =>
    match c s with
    | (Return a, s') => (Return a, s')
    | (Throw e, s') => h e s'
    end.

Definition lift {A} (o : outcome A) : M A := fun s => (o, s).

Definition gets {A} (f : state -> A) : M A := fun s => (Return (f s), s).

Definition modify (f : state -> state) : M unit := fun s => (Return tt, f s).

Notation "'let*' x ':=' c 'in' k" := (bind c (fun x => k))
  (at level 10, x pattern, c at level 100, k at level 200).

Definition emit (ev : event) : M unit :=
  modify (fun s => {| sourceMapCache := sourceMapCache s;
                      prepareStackTrace := prepareStackTrace s;
                      heap := heap s;
                      log := log s ++ [ev] |}).

Definition cache_set (k : jsstring) (v : option consumer) : M unit :=
  modify (fun s => {| sourceMapCache := <[k := v]> (sourceMapCache s);
                      prepareStackTrace := prepareStackTrace s;
                      heap := heap s;
                      log := log s |}).

Definition set_prepareStackTrace (v : value) : M unit :=
  modify (fun s => {| sourceMapCache := sourceMapCache s;
                      prepareStackTrace := v;
                      heap := heap s;
                      log := log s |}).

Definition set_heap (h : gmap loc object) : M unit :=
  modify (fun s => {| sourceMapCache := sourceMapCache s;
                      prepareStackTrace := prepareStackTrace s;
                      heap := h;
                      log := log s |}).

(* ===================================================================== *)
(** ** [loadSourceMapForFile] *)
(* ===================================================================== *)

Definition loadSourceMapForFile (e : env) (jsFilePath : jsstring)
  : M (option consumer) :=
  let* cache := gets sourceMapCache in
  match cache !! jsFilePath with
  | Some entry => ret entry
  | None =>
      let mapPath := jsFilePath ++ str ".map" in
      let* _ := emit (EExists mapPath) in
      if negb (existsSync e mapPath) then
        let* _ := cache_set jsFilePath None in
        ret None
      else
        try_catch
          (let* _ := emit (ERead mapPath) in
           let* rawMap := lift (readFileSync e mapPath) in
           let* _ := emit (EParse rawMap) in
           let* parsedMap := lift (newSourceMapConsumer e rawMap) in
           let* _ := cache_set jsFilePath (Some parsedMap) in
           ret (Some parsedMap))
          (fun _ =>
           let* _ := cache_set jsFilePath None in
           ret None)
  end.

(* ===================================================================== *)
(** ** [getCallerFrame] *)
(* ===================================================================== *)

Definition node_modules : jsstring := str "node_modules".
Definition own_file : jsstring := str "pg-filecommenter-sourcemap.js".

(** The test of the loop, on what [frame.getFileName()] returned. *)
Definition is_caller (name : option jsstring) : bool :=
  match name with
  | Some f =>
      negb (is_empty f) &&
      negb (includes f node_modules) &&
      negb (endsWith f own_file)
  | None => false
  end.

(** [for (const frame of stack) ...; return null] *)
Fixpoint first_caller (stack : list CallSite) : option Frame :=
  match stack with
  | [] => None
  | frame :: rest =>
      match getFileName frame with
      | Some f =>
          if is_caller (Some f)
          then Some {| fileName := f;
                       line := getLineNumber frame;
                       column := getColumnNumber frame |}
          else first_caller rest
      | None => first_caller rest
      end
  end.

Definition getCallerFrame (e : env) : M (option Frame) :=
  let* origPrepareStackTrace := gets prepareStackTrace in
  let* _ := set_prepareStackTrace (VFunction FnRawFrames) in
  let* stack := lift (capture e) in
  let* _ := set_prepareStackTrace origPrepareStackTrace in
  ret (first_caller stack).

(* ===================================================================== *)
(** ** [resolveOriginalPosition] *)
(* ===================================================================== *)

Definition colon : jsstring := str ":".

(** A number or [null] inside a template literal. *)
Definition show (n : option Z) : jsstring :=
  match n with
  | Some z => number_to_string z
  | None => str "null"
  end.

(** [!n] for a number or [null] *)
Definition falsy_number (n : option Z) : bool :=
  match n with
  | Some z => (z =? 0)%Z
  | None => true
  end.

Definition compiled_position (fileName : jsstring) (line column : Z)
  : jsstring :=
  basename fileName ++ colon ++ number_to_string line
                    ++ colon ++ number_to_string column.

Definition original_position_string (p : original_position) (src : jsstring)
  : jsstring :=
  src ++ colon ++ show (op_line p) ++ colon ++ show (op_column p).

Definition resolveOriginalPosition (e : env) (frame : option Frame)
  : M (option jsstring) :=
  match frame with
  | None => ret None
  | Some fr =>
      if is_empty (fileName fr) || falsy_number (line fr)
                                || falsy_number (column fr)
      then ret None
      else
        match line fr, column fr with
        | Some ln, Some col =>
            let fallback := compiled_position (fileName fr) ln col in
            let* mapConsumer := loadSourceMapForFile e (fileName fr) in
            match mapConsumer with
            | None => ret (Some fallback)
            | Some c =>
                let* originalPos := lift (originalPositionFor c ln col) in
                match originalPos with
                | Some p =>
                    match op_source p with
                    | Some src =>
                        if negb (is_empty src)
                        then ret (Some (original_position_string p src))
                        else ret (Some fallback)
                    | None => ret (Some fallback)
                    end
                | None => ret (Some fallback)
                end
            end
        | _, _ => ret None   (* excluded by the test above *)
        end
  end.

(* ===================================================================== *)
(** ** [addFileCommentToQuery] *)
(* ===================================================================== *)

(** Lines 110-111: the comment for a resolved position, or for none. *)
Definition comment_of (resolvedPosition : option jsstring) : jsstring :=
  let commentContent :=
    match resolvedPosition with
    | Some p => if is_empty p then str "file=unknown" else str "file=" ++ p
    | None => str "file=unknown"
    end in
  str "/* " ++ commentContent ++ str " */".

(** The string branch, lines 113-118. *)
Definition annotate_string (comment text : jsstring) : jsstring :=
  if endsWith (trim text) [semicolon]
  then slice_0_m1 (trim text) ++ str " " ++ comment ++ str ";"
  else text ++ str " " ++ comment.

(** The new [text.text] of the object branch, line 122, when the old one
    is the string [text]. *)
Definition annotate_text_field (comment text : jsstring) : jsstring :=
  replace_semi_at_end (trim text) ++ str " " ++ comment ++ str ";".

Definition text_key : jsstring := str "text".

Definition lookup_object (h : gmap loc object) (l : loc) : object :=
  default empty_object (h !! l).

(** [v.text] *)
Definition get_text (v : value) : M value :=
  match v with
  | VUndefined | VNull => throw (VError TypeError)
  | VObject l =>
      let* h := gets heap in
      ret (default VUndefined (props (lookup_object h l) !! text_key))
  | _ => ret VUndefined
  end.

(** [v.text = t] on an object of the store *)
Definition set_text (l : loc) (t : value) : M unit :=
  let* h := gets heap in
  let o := lookup_object h l in
  set_heap (<[l := {| elements := elements o;
                      props := <[text_key := t]> (props o) |}]> h).

Definition is_string_value (c : jsstring) (v : value) : bool :=
  match v with
  | VString s => bool_decide (s = c)
  | _ => false
  end.

(** [t.includes(comment)]: a string method, and an array method; any other
    value has no [includes] to call. *)
Definition call_includes (t : value) (comment : jsstring) : M bool :=
  match t with
  | VString s => ret (includes s comment)
  | VObject l =>
      let* h := gets heap in
      match elements (lookup_object h l) with
      | Some els => ret (existsb (is_string_value comment) els)
      | None => throw (VError TypeError)
      end
  | _ => throw (VError TypeError)
  end.

(** [t.trim()]: strings only. *)
Definition call_trim (t : value) : M jsstring :=
  match t with
  | VString s => ret (trim s)
  | _ => throw (VError TypeError)
  end.

(** Lines 113-127, for a comment already built. *)
Definition annotate (comment : jsstring) (text values : value)
  : M (value * value) :=
  match text with
  | VString s => ret (VString (annotate_string comment s), values)
  | _ =>
      if is_object_type text then
        let* t := get_text text in
        if truthy t then
          let* present := call_includes t comment in
          let* _ :=
            (if negb present then
               let* trimmed := call_trim t in
               match text with
               | VObject l =>
                   set_text l
                     (VString (replace_semi_at_end trimmed
                                 ++ str " " ++ comment ++ str ";"))
               | _ => ret tt
               end
             else ret tt) in
          ret (text, values)
        else ret (text, values)
      else ret (text, values)
  end.

Definition addFileCommentToQuery (e : env) (text values : value)
  : M (value * value) :=
  let* frame := getCallerFrame e in
  let* resolvedPosition := resolveOriginalPosition e frame in
  annotate (comment_of resolvedPosition) text values.

(* ===================================================================== *)
(** ** [patchPGPoolAsync]: the wrapper installed on [pool.query] *)
(* ===================================================================== *)

(** What [patchedQuery] hands back to its caller. *)
Inductive returned :=
| RUndefined
| RPromise (settled : outcome value).

(** [args[i]], [undefined] when the call has fewer arguments *)
Definition arg (i : nat) (args : list value) : value :=
  default VUndefined (args !! i).

(** [promise.then(res => callback(null, res), err => callback(err))] *)
Definition deliver (callback : value) (promise : outcome value) : M unit :=
  match callback with
  | VFunction f =>
      match promise with
      | Return res => emit (ECallback f [VNull; res])
      | Throw err => emit (ECallback f [err])
      end
  | _ => emit (EUnhandledRejection (VError TypeError))
  end.

(** [origQuery] stands for [pool.query] as it was before the patch, seen
    through [then]: [Return] when the call returns a value or a promise that
    is fulfilled, [Throw] when it throws or its promise is rejected. *)
Definition patchedQuery (origQuery : list value -> outcome value)
    (e : env) (args : list value) (s : state) : returned * state :=
  let text := arg 0 args in
  let '(callback, values) :=
    if is_function (arg 1 args)
    then (arg 1 args, VUndefined)
    else (arg 2 args, arg 1 args) in
  let '(promise, s1) :=
    (let* (newText, newValues) := addFileCommentToQuery e text values in
     let* _ := emit (EOrigQuery [newText; newValues]) in
     lift (origQuery [newText; newValues])) s in
  if truthy callback
  then (RUndefined, snd (deliver callback promise s1))
  else (RPromise promise, s1).

(* ===================================================================== *)
(** ** The annotation comment *)
(* ===================================================================== *)

(** Every annotation comment starts with these code units; an annotation
    comment of a text is an index at which they occur. *)
Definition annotation_opener : jsstring := str "/* file=".

Definition annotation_comments (s : jsstring) : nat :=
  count_occurrences annotation_opener s.

(** What follows the opener in the comment for a position. *)
Definition comment_body (resolvedPosition : option jsstring) : jsstring :=
  match resolvedPosition with
  | Some p => if is_empty p then str "unknown" else p
  | None => str "unknown"
  end.

(* ===================================================================== *)
(** ** Vocabulary of the statements *)
(* ===================================================================== *)

Definition map_path (jsFilePath : jsstring) : jsstring :=
  jsFilePath ++ str ".map".

(** No usable map lies next to the compiled file: there is no [.map] file,
    or reading it fails, or parsing what was read fails. *)
Definition map_unavailable (e : env) (jsFilePath : jsstring) : Prop :=
  existsSync e (map_path jsFilePath) = false \/
  (exists err, readFileSync e (map_path jsFilePath) = Throw err) \/
  (exists rawMap err,
      readFileSync e (map_path jsFilePath) = Return rawMap /\
      newSourceMapConsumer e rawMap = Throw err).

(** Later calls of [loadSourceMapForFile], each in its own environment,
    run one after the other. *)
Fixpoint run_loads (calls : list (env * jsstring)) (s : state) : state :=
  match calls with
  | [] => s
  | (e, jsFilePath) :: rest =>
      run_loads rest (snd (loadSourceMapForFile e jsFilePath s))
  end.

(** No map is to be had for a compiled file: its absence is already
    recorded in the cache, or nothing is cached and a load finds nothing
    usable. *)
Definition no_map_available (e : env) (s : state) (jsFilePath : jsstring)
  : Prop :=
  sourceMapCache s !! jsFilePath = Some None \/
  (sourceMapCache s !! jsFilePath = None /\ map_unavailable e jsFilePath).

(** A frame of the stack that the loop of [getCallerFrame] passes over. *)
Definition skipped (frame : CallSite) : Prop :=
  is_caller (getFileName frame) = false.

(* ===================================================================== *)
(** ** Concrete states and environments, for the scenarios *)
(* ===================================================================== *)

Definition initial_state : state :=
  {| sourceMapCache := ∅;
     prepareStackTrace := VUndefined;
     heap := ∅;
     log := [] |}.

Definition io_error : value := VError (OtherError 0).
Definition parse_error : value := VError (OtherError 1).

Definition call_site (file : string) (ln col : Z) : CallSite :=
  {| getFileName := Some (str file);
     getLineNumber := Some ln;
     getColumnNumber := Some col |}.

(** The stack of a query issued at line 7, column 3 of [app.js], as
    [getCallerFrame] sees it: the two functions of the module that lead to
    it, then the caller, then the module loader of Node. *)
Definition app_js_stack : list CallSite :=
  [ call_site "/srv/app/pg-filecommenter-sourcemap.js" 106 17;
    call_site "/srv/app/pg-filecommenter-sourcemap.js" 146 21;
    call_site "/srv/app/app.js" 7 3;
    {| getFileName := Some (str "node:internal/modules/cjs/loader");
       getLineNumber := Some 1554%Z; getColumnNumber := Some 14%Z |} ].

(** [app.js] with no map file next to it. *)
Definition app_js_env : env :=
  {| capture := Return app_js_stack;
     existsSync := fun _ => false;
     readFileSync := fun _ => Throw io_error;
     newSourceMapConsumer := fun _ => Throw parse_error |}.

(** A map file that is there and cannot be parsed. *)
Definition broken_map_env : env :=
  {| capture := Return app_js_stack;
     existsSync := fun _ => true;
     readFileSync := fun _ => Return (str "{");
     newSourceMapConsumer := fun _ => Throw parse_error |}.

(** A consumer that maps every position to [app.ts:5:10]. *)
Definition app_ts_consumer : consumer :=
  {| originalPositionFor := fun _ _ =>
       Return (Some {| op_source := Some (str "app.ts");
                       op_line := Some 5%Z;
                       op_column := Some 10%Z |}) |}.

(** A consumer whose mapping names its source by the empty string. *)
Definition unnamed_source_consumer : consumer :=
  {| originalPositionFor := fun _ _ =>
       Return (Some {| op_source := Some [];
                       op_line := Some 5%Z;
                       op_column := Some 10%Z |}) |}.

(** [app.js] compiled from [app.ts], with its map next to it. *)
Definition mapped_env : env :=
  {| capture := Return app_js_stack;
     existsSync := fun _ => true;
     readFileSync := fun _ => Return (str "{...}");
     newSourceMapConsumer := fun _ => Return app_ts_consumer |}.

(** Stack capture itself throws (a stack overflow, say). *)
Definition failing_capture_env : env :=
  {| capture := Throw (VError RangeError);
     existsSync := fun _ => false;
     readFileSync := fun _ => Throw io_error;
     newSourceMapConsumer := fun _ => Throw parse_error |}.

Definition app_js_frame : Frame :=
  {| fileName := str "/srv/app/app.js";
     line := Some 7%Z;
     column := Some 3%Z |}.

Definition with_cache (s : state) (k : jsstring) (v : option consumer)
  : state :=
  {| sourceMapCache := <[k := v]> (sourceMapCache s);
     prepareStackTrace := prepareStackTrace s;
     heap := heap s;
     log := log s |}.

(** The calls of the wrapped [pool.query] recorded in a log, in order. *)
Fixpoint orig_calls (evs : list event) : list (list value) :=
  match evs with
  | [] => []
  | EOrigQuery args :: rest => args :: orig_calls rest
  | _ :: rest => orig_calls rest
  end.

(** The calls of callbacks recorded in a log, in order. *)
Fixpoint callback_calls (evs : list event) : list (fn * list value) :=
  match evs with
  | [] => []
  | ECallback f args :: rest => (f, args) :: callback_calls rest
  | _ :: rest => callback_calls rest
  end.

(** The arguments a callback receives for a settled promise. *)
Definition callback_args (settled : outcome value) : list value :=
  match settled with
  | Return res => [VNull; res]
  | Throw err => [err]
  end.

(** A state whose store holds one object, at location 1. *)
Definition with_object (o : object) : state :=
  {| sourceMapCache := ∅;
     prepareStackTrace := VUndefined;
     heap := {[ 1%positive := o ]};
     log := [] |}.

Definition values_key : jsstring := str "values".

(** [{ text: "SELECT 1", values: <object 2> }] *)
Definition select_1_config : object :=
  {| elements := None;
     props := {[ text_key := VString (str "SELECT 1");
                 values_key := VObject 2%positive ]} |}.

(** [{ text: 42 }] *)
Definition numeric_text_config : object :=
  {| elements := None;
     props := {[ text_key := VNumber 42 ]} |}.

(** A stack on which no frame qualifies. *)
Definition unknown_env : env :=
  {| capture := Return [];
     existsSync := fun _ => false;
     readFileSync := fun _ => Throw io_error;
     newSourceMapConsumer := fun _ => Throw parse_error |}.

(** A wrapped [pool.query] that succeeds with the number of arguments it
    was called with. *)
Definition counting_query (args : list value) : outcome value :=
  Return (VNumber (Z.of_nat (length args))).

(** Lines 141-144: what the wrapper takes for the values and for the
    callback of a call. *)
Definition effective_values (args : list value) : value :=
  if is_function (arg 1 args) then VUndefined else arg 1 args.

Definition effective_callback (args : list value) : value :=
  if is_function (arg 1 args) then arg 1 args else arg 2 args.

(** Nothing was forwarded and no callback was called between two states. *)
Definition quiet (s s1 : state) : Prop :=
  orig_calls (log s1) = orig_calls (log s) /\
  callback_calls (log s1) = callback_calls (log s).

Definition add_event (s : state) (ev : event) : state :=
  {| sourceMapCache := sourceMapCache s;
     prepareStackTrace := prepareStackTrace s;
     heap := heap s;
     log := log s ++ [ev] |}.

(** [pool.query("SELECT NOW();", f1, f2)] *)
Definition two_callbacks_call : list value :=
  [VString (str "SELECT NOW();"); VFunction (FnUser 1); VFunction (FnUser 2)].

(** [pool.query("SELECT NOW();", undefined, f1)] *)
Definition values_callback_call : list value :=
  [VString (str "SELECT NOW();"); VUndefined; VFunction (FnUser 1)].

(** A wrapped [pool.query] that fails. *)
Definition failing_query (args : list value) : outcome value :=
  Throw (VError (OtherError 7)).

(* ===================================================================== *)
(** ** Vocabulary of the further properties *)
(* ===================================================================== *)

(** The guard of line 75 lets the frame through. *)
Definition frame_usable (frame : option Frame) : bool :=
  match frame with
  | Some fr =>
      negb (is_empty (fileName fr) || falsy_number (line fr)
                                   || falsy_number (column fr))
  | None => false
  end.

(** The source that line 90 accepts in what the consumer answered. *)
Definition named_source (o : option original_position) : option jsstring :=
  match o with
  | Some p =>
      match op_source p with
      | Some src => if is_empty src then None else Some src
      | None => None
      end
  | None => None
  end.

(** The events of a load concern the map file of the path only, and what
    is parsed is what was read from it. *)
Definition map_event (e : env) (jsFilePath : jsstring) (ev : event) : Prop :=
  ev = EExists (map_path jsFilePath) \/
  ev = ERead (map_path jsFilePath) \/
  exists rawMap,
    readFileSync e (map_path jsFilePath) = Return rawMap /\
    ev = EParse rawMap.

Definition is_digit_or_minus (c : N) : bool :=
  ((48 <=? c) && (c <=? 57)) || (c =? 45).

(** [{ text: "SELECT 1;" }], and a callback that is no function. *)
Definition select_1_terminated : jsstring := str "  SELECT 1;  ".

Definition junk_callback_call : list value :=
  [VString (str "SELECT NOW();"); VUndefined; VString (str "oops")].

(** A consumer whose lookup throws. *)
Definition throwing_consumer : consumer :=
  {| originalPositionFor := fun _ _ => Throw (VError (OtherError 3)) |}.

(** A consumer that has no mapping for any position. *)
Definition silent_consumer : consumer :=
  {| originalPositionFor := fun _ _ =>
       Return (Some {| op_source := None;
                       op_line := None;
                       op_column := None |}) |}.

(** Lines 80-96 once the map lookup has answered: the position for a usable
    frame, by the cache entry of its file. *)
Definition position_for (fileName : jsstring) (ln col : Z)
    (entry : option consumer) : outcome (option jsstring) :=
  match entry with
  | None => Return (Some (compiled_position fileName ln col))
  | Some c =>
      match originalPositionFor c ln col with
      | Return o =>
          Return
            (Some match o, named_source o with
                  | Some p, Some src => original_position_string p src
                  | _, _ => compiled_position fileName ln col
                  end)
      | Throw err => Throw err
      end
  end.

(** [{ text: <t> }] at location 1 of an otherwise empty store. *)
Definition with_text (t : jsstring) : state :=
  with_object {| elements := None;
                 props := {[ text_key := VString t ]} |}.

(** The two code units that close an SQL comment. *)
Definition comment_closer : jsstring := str "*/".

(** How many times a log asks whether a file exists, reads one, parses. *)
Fixpoint exists_calls (evs : list event) : nat :=
  match evs with
  | [] => 0
  | EExists _ :: rest => S (exists_calls rest)
  | _ :: rest => exists_calls rest
  end.

Fixpoint read_calls (evs : list event) : nat :=
  match evs with
  | [] => 0
  | ERead _ :: rest => S (read_calls rest)
  | _ :: rest => read_calls rest
  end.

Fixpoint parse_calls (evs : list event) : nat :=
  match evs with
  | [] => 0
  | EParse _ :: rest => S (parse_calls rest)
  | _ :: rest => parse_calls rest
  end.

(** A frame that the test of lines 53-57 rejects, test by test: no file
    name, an empty one, one that contains [node_modules], or one that ends
    in [pg-filecommenter-sourcemap.js]. *)
Definition excluded (frame : CallSite) : Prop :=
  match getFileName frame with
  | None => True
  | Some f =>
      f = [] \/
      includes f (str "node_modules") = true \/
      endsWith f (str "pg-filecommenter-sourcemap.js") = true
  end.

(** Follows the claim's words, for comparison with the test of the code: a
    frame qualifies when its file name is not empty, does not contain
    [node_modules] and is not the file [own] of the module itself. *)
Definition qualifies_as_claimed (own : jsstring) (frame : CallSite) : bool :=
  match getFileName frame with
  | Some f =>
      negb (is_empty f) &&
      negb (includes f (str "node_modules")) &&
      negb (bool_decide (f = own))
  | None => false
  end.

(** Where the module lies in the scenarios. *)
Definition module_file : jsstring :=
  str "/srv/app/pg-filecommenter-sourcemap.js".

(** A query issued from a test file of the module, named after it, which a
    runner has called. *)
Definition test_file_call_site : CallSite :=
  call_site "/srv/app/test/test-pg-filecommenter-sourcemap.js" 7 3.

Definition test_file_stack : list CallSite :=
  [ call_site "/srv/app/pg-filecommenter-sourcemap.js" 106 17;
    call_site "/srv/app/pg-filecommenter-sourcemap.js" 146 21;
    test_file_call_site;
    call_site "/srv/app/runner.js" 40 1 ].

Definition test_file_env : env :=
  {| capture := Return test_file_stack;
     existsSync := fun _ => false;
     readFileSync := fun _ => Throw io_error;
     newSourceMapConsumer := fun _ => Throw parse_error |}.

(* ===================================================================== *)
(** ** The string functions on examples *)
(* ===================================================================== *)

Example basename_abs : basename (str "/srv/app/dist/app.js") = str "app.js".
Proof. reflexivity. Qed.
Example basename_trailing : basename (str "lib/dir//") = str "dir".
Proof. reflexivity. Qed.
Example number_to_string_7 : number_to_string 7 = str "7".
Proof. reflexivity. Qed.
Example number_to_string_neg : number_to_string (-120) = str "-120".
Proof. reflexivity. Qed.
Example number_to_string_0 : number_to_string 0 = str "0".
Proof. reflexivity. Qed.
Example trim_ex : trim (str "  SELECT 1; ") = str "SELECT 1;".
Proof. reflexivity. Qed.
Example replace_ex1 : replace_semi_at_end (str "a;b;;") = str "a;b;".
Proof. reflexivity. Qed.
Example replace_ex2 : replace_semi_at_end (str "a;b") = str "a;b".
Proof. reflexivity. Qed.

(* ===================================================================== *)
(** ** Facts about strings *)
(* ===================================================================== *)

Section StringFacts.

Implicit Types s p a b : jsstring.

Lemma startsWith_nil s : startsWith s [] = true.
Proof. destruct s; reflexivity. Qed.

Lemma startsWith_iff s p :
  startsWith s p = true <-> exists t, s = p ++ t.
Proof.
  revert s; induction p as [|x p IH]; intros s.
  - rewrite startsWith_nil. split; [exists s; reflexivity | reflexivity].
  - destruct s as [|c s]; simpl.
    + split; [discriminate | intros [t Ht]; discriminate].
    + rewrite andb_true_iff, N.eqb_eq, IH. split.
      * intros [-> [t ->]]. exists t; reflexivity.
      * intros [t Ht]. injection Ht as -> ->. split; [reflexivity | eauto].
Qed.

Lemma startsWith_refl s : startsWith s s = true.
Proof. apply startsWith_iff. exists []. symmetry; apply app_nil_r. Qed.

Lemma startsWith_app_l s t p :
  startsWith s p = true -> startsWith (s ++ t) p = true.
Proof.
  rewrite !startsWith_iff. intros [u ->]. exists (u ++ t).
  symmetry; apply app_assoc.
Qed.

(** An occurrence at the head of [a ++ b] lies within [a], or straddles
    the seam: [a] is then a proper prefix of the pattern. *)
Lemma startsWith_app_split a b p :
  startsWith (a ++ b) p = true ->
  startsWith a p = true \/
  exists k, (k < length p)%nat /\ a = firstn k p /\
            startsWith b (skipn k p) = true.
Proof.
  revert a; induction p as [|x p IH]; intros a H.
  - left. apply startsWith_nil.
  - destruct a as [|c a].
    + right. exists 0%nat. simpl in *. split; [lia | auto].
    + simpl in H. apply andb_true_iff in H as [Hc H].
      destruct (IH a H) as [Hl | (k & Hk & Ha & Hb)].
      * left. simpl. rewrite Hc, Hl. reflexivity.
      * right. exists (S k). apply N.eqb_eq in Hc. subst x.
        simpl. repeat split; [lia | congruence | assumption].
Qed.

Lemma endsWith_refl s : endsWith s s = true.
Proof. apply startsWith_refl. Qed.

Lemma endsWith_cons c s p : endsWith s p = true -> endsWith (c :: s) p = true.
Proof. unfold endsWith. simpl. apply startsWith_app_l. Qed.

Lemma endsWith_iff s p : endsWith s p = true <-> exists t, s = t ++ p.
Proof.
  unfold endsWith. rewrite startsWith_iff. split.
  - intros [t Ht]. exists (rev t).
    rewrite <- (rev_involutive s), Ht, rev_app_distr, rev_involutive.
    reflexivity.
  - intros [t ->]. exists (rev t). apply rev_app_distr.
Qed.

Lemma endsWith_app s t p : endsWith (t ++ p) p = true.
Proof. apply endsWith_iff. eauto. Qed.

Lemma includes_nil p : includes [] p = startsWith [] p.
Proof. simpl. apply orb_false_r. Qed.

Lemma includes_cons c s p :
  includes (c :: s) p = startsWith (c :: s) p || includes s p.
Proof. reflexivity. Qed.

Lemma includes_iff s p :
  includes s p = true <-> exists u v, s = u ++ p ++ v.
Proof.
  induction s as [|c s IH].
  - rewrite includes_nil, startsWith_iff. split.
    + intros [t Ht]. exists [], t. exact Ht.
    + intros (u & v & H). destruct u; simpl in H.
      * eauto.
      * discriminate.
  - rewrite includes_cons, orb_true_iff, IH, startsWith_iff. split.
    + intros [[t Ht] | (u & v & ->)].
      * exists [], t. exact Ht.
      * exists (c :: u), v. reflexivity.
    + intros (u & v & H). destruct u as [|d u]; simpl in H.
      * left. eauto.
      * right. injection H as -> ->. eauto.
Qed.

(** *** Counting occurrences across a concatenation *)

Lemma count_occurrences_app p a b :
  (forall k, (0 < k < length p)%nat ->
             endsWith a (firstn k p) = true ->
             startsWith b (skipn k p) = true -> False) ->
  count_occurrences p (a ++ b)
  = (count_occurrences p a + count_occurrences p b)%nat.
Proof.
  induction a as [|c a IH]; intros Hseam; [reflexivity|].
  change (count_occurrences p ((c :: a) ++ b))
    with ((if startsWith ((c :: a) ++ b) p then 1 else 0)
          + count_occurrences p (a ++ b))%nat.
  rewrite IH.
  2:{ intros k Hk Ha Hb. eapply Hseam; eauto using endsWith_cons. }
  assert (startsWith ((c :: a) ++ b) p = startsWith (c :: a) p) as ->.
  { destruct (startsWith (c :: a) p) eqn:E.
    - apply startsWith_app_l. exact E.
    - destruct (startsWith ((c :: a) ++ b) p) eqn:E'; [|reflexivity].
      apply startsWith_app_split in E' as [E' | (k & Hk & Ha & Hb)];
        [congruence|].
      exfalso. apply (Hseam k).
      + destruct k; [discriminate Ha | lia].
      + rewrite <- Ha. apply endsWith_refl.
      + exact Hb. }
  simpl. lia.
Qed.

Lemma count_occurrences_app_le_l p a b :
  (count_occurrences p a <= count_occurrences p (a ++ b))%nat.
Proof.
  induction a as [|c a IH]; [simpl; lia|].
  change (count_occurrences p ((c :: a) ++ b))
    with ((if startsWith ((c :: a) ++ b) p then 1 else 0)
          + count_occurrences p (a ++ b))%nat.
  change (count_occurrences p (c :: a))
    with ((if startsWith (c :: a) p then 1 else 0)
          + count_occurrences p a)%nat.
  destruct (startsWith (c :: a) p) eqn:E.
  - rewrite (startsWith_app_l _ b _ E). lia.
  - destruct (startsWith ((c :: a) ++ b) p); lia.
Qed.

Lemma count_occurrences_app_le_r p a b :
  (count_occurrences p b <= count_occurrences p (a ++ b))%nat.
Proof.
  induction a as [|c a IH]; [simpl; lia|].
  change (count_occurrences p ((c :: a) ++ b))
    with ((if startsWith ((c :: a) ++ b) p then 1 else 0)
          + count_occurrences p (a ++ b))%nat.
  lia.
Qed.

(** The seam condition, by computation on one side only. *)
Lemma count_occurrences_app_right p a b :
  forallb (fun k => negb (startsWith b (skipn k p)))
          (seq 1 (length p - 1)) = true ->
  count_occurrences p (a ++ b)
  = (count_occurrences p a + count_occurrences p b)%nat.
Proof.
  intros H. apply count_occurrences_app. intros k Hk _ Hb.
  rewrite forallb_forall in H. specialize (H k).
  rewrite Hb in H. discriminate H. apply in_seq. lia.
Qed.

Lemma count_occurrences_app_left p a b :
  forallb (fun k => negb (endsWith a (firstn k p)))
          (seq 1 (length p - 1)) = true ->
  count_occurrences p (a ++ b)
  = (count_occurrences p a + count_occurrences p b)%nat.
Proof.
  intros H. apply count_occurrences_app. intros k Hk Ha _.
  rewrite forallb_forall in H. specialize (H k).
  rewrite Ha in H. discriminate H. apply in_seq. lia.
Qed.

(** *** Trimming *)

Lemma trimStart_decompose s : exists w, s = w ++ trimStart s.
Proof.
  induction s as [|c s [w Hw]]; [exists []; reflexivity|].
  simpl. destruct (is_white_space c).
  - exists (c :: w). simpl. congruence.
  - exists []. reflexivity.
Qed.

Lemma trimEnd_decompose s : exists w, s = trimEnd s ++ w.
Proof.
  unfold trimEnd. destruct (trimStart_decompose (rev s)) as [w Hw].
  exists (rev w). rewrite <- rev_app_distr, <- Hw, rev_involutive.
  reflexivity.
Qed.

Lemma trim_decompose s : exists w1 w2, s = w1 ++ trim s ++ w2.
Proof.
  destruct (trimStart_decompose s) as [w1 H1].
  destruct (trimEnd_decompose (trimStart s)) as [w2 H2].
  exists w1, w2. unfold trim. rewrite <- H2. exact H1.
Qed.

Lemma endsWith_semicolon_slice s :
  endsWith s [semicolon] = true -> s = slice_0_m1 s ++ [semicolon].
Proof.
  intros H. apply endsWith_iff in H as [t ->].
  unfold slice_0_m1. rewrite removelast_last. reflexivity.
Qed.

End StringFacts.

(* ===================================================================== *)
(** ** Counting annotation comments *)
(* ===================================================================== *)

Lemma comment_of_shape pos :
  comment_of pos = annotation_opener ++ comment_body pos ++ str " */".
Proof. destruct pos as [[|c p]|]; reflexivity. Qed.

Lemma comment_body_clean pos :
  (forall p, pos = Some p -> annotation_comments p = 0%nat) ->
  annotation_comments (comment_body pos) = 0%nat.
Proof.
  intros H. destruct pos as [[|c p]|]; try reflexivity.
  apply (H (c :: p)). reflexivity.
Qed.

(** A comment is one annotation comment when the position holds none. *)
Lemma annotation_comments_tail t :
  annotation_comments (str " " ++ annotation_opener ++ t ++ str " */;")
  = S (annotation_comments t).
Proof.
  unfold annotation_comments.
  rewrite (count_occurrences_app_right _ (str " ")) by reflexivity.
  rewrite (count_occurrences_app_left _ annotation_opener) by reflexivity.
  rewrite (count_occurrences_app_right _ t) by reflexivity.
  change (count_occurrences annotation_opener (str " ")) with 0%nat.
  change (count_occurrences annotation_opener annotation_opener) with 1%nat.
  change (count_occurrences annotation_opener (str " */;")) with 0%nat.
  lia.
Qed.

Lemma annotation_comments_append a t :
  annotation_comments (a ++ str " " ++ annotation_opener ++ t ++ str " */;")
  = (annotation_comments a + S (annotation_comments t))%nat.
Proof.
  rewrite <- (annotation_comments_tail t).
  unfold annotation_comments.
  apply count_occurrences_app_right. reflexivity.
Qed.

Lemma annotation_comments_sub a b c :
  annotation_comments (a ++ b ++ c) = 0%nat -> annotation_comments b = 0%nat.
Proof.
  unfold annotation_comments. intros H.
  pose proof (count_occurrences_app_le_r annotation_opener a (b ++ c)).
  pose proof (count_occurrences_app_le_l annotation_opener b c).
  lia.
Qed.

(* ===================================================================== *)
(** ** Query annotator, string form *)
(* ===================================================================== *)

Lemma annotate_string_terminated comment text :
  endsWith (trim text) [semicolon] = true ->
  annotate_string comment text
  = slice_0_m1 (trim text) ++ str " " ++ comment ++ str ";".
Proof. intros H. unfold annotate_string. rewrite H. reflexivity. Qed.

(** The comment ends in [*/], so whatever the query was, the terminator put
    back after it stands alone. *)
Lemma one_terminator_after_comment a pos :
  let r := a ++ str " " ++ comment_of pos ++ str ";" in
  endsWith r [semicolon] = true /\
  endsWith r [semicolon; semicolon] = false.
Proof.
  rewrite comment_of_shape. unfold endsWith.
  rewrite !rev_app_distr. split; reflexivity.
Qed.

Example annotate_string_ex1 :
  annotate_string (comment_of (Some (str "app.js:7:3"))) (str "SELECT NOW();")
  = str "SELECT NOW() /* file=app.js:7:3 */;".
Proof. reflexivity. Qed.

Example annotate_string_ex2 :
  annotate_string (comment_of None) (str " SELECT 1 ;;  ")
  = str "SELECT 1 ; /* file=unknown */;".
Proof. reflexivity. Qed.

Example annotate_string_ex3 :
  annotate_string (comment_of None) (str "SELECT 1  ")
  = str "SELECT 1   /* file=unknown */".
Proof. reflexivity. Qed.

(** The string branch has no guard against a comment that is already
    there: the very comment it is about to add is added a second time. *)
Example annotate_string_same_comment_twice :
  annotate_string (comment_of None) (str "SELECT 1 /* file=unknown */;")
  = str "SELECT 1 /* file=unknown */ /* file=unknown */;".
Proof. reflexivity. Qed.

(** Whatever the query holds, a terminated query gains exactly the
    annotation comments of the comment appended to it. *)
Lemma annotate_string_adds_comment Q pos :
  endsWith (trim Q) [semicolon] = true ->
  annotation_comments (annotate_string (comment_of pos) Q)
  = (annotation_comments (slice_0_m1 (trim Q))
     + S (annotation_comments (comment_body pos)))%nat.
Proof.
  intros Hend. rewrite (annotate_string_terminated _ _ Hend).
  rewrite comment_of_shape, <- annotation_comments_append.
  rewrite <- !app_assoc. reflexivity.
Qed.

(** C1, refuted as stated: a terminated query that already carries an
    annotation comment (here one left by another call site) comes back with
    two annotation comments, not one. *)
Lemma annotate_string_keeps_earlier_comment :
  let Q := str "SELECT 1 /* file=job.js:2:9 */;" in
  let pos := Some (str "app.js:7:3") in
  endsWith (trim Q) [semicolon] = true /\
  annotate_string (comment_of pos) Q
  = str "SELECT 1 /* file=job.js:2:9 */ /* file=app.js:7:3 */;" /\
  annotation_comments (annotate_string (comment_of pos) Q) = 2%nat.
Proof. repeat split; reflexivity. Qed.

(** C1, amended: for a string query [Q] whose trimmed text ends in [;] and
    which holds no annotation comment yet, and a resolved position that
    holds no comment opener itself, the annotation returns, with the values
    untouched, the trimmed text with the comment put before its terminator; it ends in exactly one
    [;] and holds exactly one annotation comment. *)
Theorem annotate_string_one_comment (Q : jsstring) (pos : option jsstring) :
  endsWith (trim Q) [semicolon] = true ->
  annotation_comments Q = 0%nat ->
  (forall p, pos = Some p -> annotation_comments p = 0%nat) ->
  let r := annotate_string (comment_of pos) Q in
  (forall values s,
      annotate (comment_of pos) (VString Q) values s
      = (Return (VString r, values), s)) /\
  r = slice_0_m1 (trim Q) ++ str " " ++ comment_of pos ++ str ";" /\
  endsWith r [semicolon] = true /\
  endsWith r [semicolon; semicolon] = false /\
  annotation_comments r = 1%nat.
Proof.
  intros Hend HQ Hpos r. subst r.
  split; [reflexivity|].
  rewrite (annotate_string_terminated _ _ Hend).
  split; [reflexivity|].
  destruct (one_terminator_after_comment (slice_0_m1 (trim Q)) pos) as [H1 H2].
  split; [exact H1|]. split; [exact H2|].
  rewrite comment_of_shape.
  replace (slice_0_m1 (trim Q) ++ str " "
             ++ (annotation_opener ++ comment_body pos ++ str " */") ++ str ";")
    with (slice_0_m1 (trim Q) ++ str " "
             ++ annotation_opener ++ comment_body pos ++ str " */;")
    by (rewrite <- !app_assoc; reflexivity).
  rewrite annotation_comments_append, (comment_body_clean _ Hpos).
  destruct (trim_decompose Q) as (w1 & w2 & HQ').
  rewrite (endsWith_semicolon_slice _ Hend) in HQ'.
  rewrite HQ', <- app_assoc in HQ.
  apply annotation_comments_sub in HQ. rewrite HQ. reflexivity.
Qed.

Lemma annotate_string_one_comment_witness :
  let Q := str "  SELECT NOW();  " in
  let pos := Some (str "src/app.ts:5:10") in
  let r := annotate_string (comment_of pos) Q in
  (forall values s,
      annotate (comment_of pos) (VString Q) values s
      = (Return (VString r, values), s)) /\
  r = str "SELECT NOW() /* file=src/app.ts:5:10 */;" /\
  endsWith r [semicolon] = true /\
  endsWith r [semicolon; semicolon] = false /\
  annotation_comments r = 1%nat.
Proof.
  apply (annotate_string_one_comment
           (str "  SELECT NOW();  ") (Some (str "src/app.ts:5:10"))).
  - reflexivity.
  - reflexivity.
  - intros p Hp. injection Hp as <-. reflexivity.
Defined.

(* ===================================================================== *)
(** ** Source map cache *)
(* ===================================================================== *)

Ltac unfold_M :=
  unfold bind, try_catch, ret, throw, lift, gets, modify, emit, cache_set,
    set_prepareStackTrace, set_heap in *.

(** A cached entry is returned as it is: the state, hence the log of file
    system and parser calls, does not change. *)
Lemma loadSourceMapForFile_hit e p s entry :
  sourceMapCache s !! p = Some entry ->
  loadSourceMapForFile e p s = (Return entry, s).
Proof.
  intros H. unfold loadSourceMapForFile. unfold_M. rewrite H. reflexivity.
Qed.

(** A first load always returns, and records what it returns under its own
    key only. *)
Lemma loadSourceMapForFile_miss e p s :
  sourceMapCache s !! p = None ->
  exists entry s1,
    loadSourceMapForFile e p s = (Return entry, s1) /\
    sourceMapCache s1 = <[p := entry]> (sourceMapCache s) /\
    prepareStackTrace s1 = prepareStackTrace s /\
    heap s1 = heap s /\
    (map_unavailable e p -> entry = None).
Proof.
  intros H. unfold loadSourceMapForFile, map_unavailable, map_path.
  unfold_M. rewrite H. simpl.
  destruct (existsSync e (p ++ str ".map")) eqn:Hex; simpl.
  - destruct (readFileSync e (p ++ str ".map")) as [raw|err] eqn:Hrd; simpl.
    + destruct (newSourceMapConsumer e raw) as [c|err] eqn:Hp; simpl.
      * eexists _, _. repeat split.
        intros [Hn | [[x Hx] | (r & x & Hr & Hx)]]; try discriminate.
        injection Hr as <-. congruence.
      * eexists _, _. repeat split.
    + eexists _, _. repeat split.
  - eexists _, _. repeat split.
Qed.

Lemma loadSourceMapForFile_keeps_entry e q s p entry :
  sourceMapCache s !! p = Some entry ->
  sourceMapCache (snd (loadSourceMapForFile e q s)) !! p = Some entry.
Proof.
  intros H. destruct (sourceMapCache s !! q) as [x|] eqn:Hq.
  - rewrite (loadSourceMapForFile_hit _ _ _ _ Hq). exact H.
  - destruct (loadSourceMapForFile_miss e q s Hq) as (x & s1 & -> & Hc & _).
    simpl. rewrite Hc. rewrite lookup_insert_ne; [exact H|].
    intros ->. congruence.
Qed.

Lemma run_loads_keeps_entry calls s p entry :
  sourceMapCache s !! p = Some entry ->
  sourceMapCache (run_loads calls s) !! p = Some entry.
Proof.
  revert s; induction calls as [|[e q] calls IH]; intros s H; [exact H|].
  simpl. apply IH. apply loadSourceMapForFile_keeps_entry. exact H.
Qed.

(** C8: [loadSourceMapForFile] never throws; what the first call for a path
    returns is what every later call for that path returns, whatever was
    loaded in between and whatever the file system has become, and a later
    call leaves the state (and with it the log of reads and parses)
    untouched; more generally a call made in any state that holds an entry
    for the path returns that entry and touches nothing; a first load that
    finds no map file, cannot read it or
    cannot parse it returns [null] and records [null], the same entry in
    the three cases. *)
Theorem loadSourceMapForFile_memoized (e : env) (p : jsstring) (s : state) :
  exists entry s1,
    loadSourceMapForFile e p s = (Return entry, s1) /\
    (forall calls e',
        let s2 := run_loads calls s1 in
        loadSourceMapForFile e' p s2 = (Return entry, s2)) /\
    (forall e' s2 cached,
        sourceMapCache s2 !! p = Some cached ->
        loadSourceMapForFile e' p s2 = (Return cached, s2)) /\
    (sourceMapCache s !! p = None ->
     map_unavailable e p ->
     entry = None /\
     sourceMapCache s1 = <[p := None]> (sourceMapCache s)).
Proof.
  destruct (sourceMapCache s !! p) as [x|] eqn:Hp.
  - exists x, s. split; [apply loadSourceMapForFile_hit, Hp|].
    split; [|split; [intros e' s2 c; apply loadSourceMapForFile_hit
                    |discriminate]].
    intros calls e' s2. apply loadSourceMapForFile_hit.
    apply run_loads_keeps_entry, Hp.
  - destruct (loadSourceMapForFile_miss e p s Hp)
      as (x & s1 & Hrun & Hc & _ & _ & Hun).
    exists x, s1. split; [exact Hrun|]. split; [|split].
    + intros calls e' s2. apply loadSourceMapForFile_hit.
      apply run_loads_keeps_entry. rewrite Hc. apply lookup_insert_eq.
    + intros e' s2 c. apply loadSourceMapForFile_hit.
    + intros _ Hu. rewrite (Hun Hu) in Hc |- *. split; [reflexivity | exact Hc].
Qed.

Lemma loadSourceMapForFile_memoized_witness :
  exists s1,
    loadSourceMapForFile broken_map_env (str "/srv/app/app.js") initial_state
    = (Return None, s1) /\
    sourceMapCache s1 = <[str "/srv/app/app.js" := None]> ∅ /\
    loadSourceMapForFile app_js_env (str "/srv/app/app.js") s1
    = (Return None, s1).
Proof.
  destruct (loadSourceMapForFile_memoized
              broken_map_env (str "/srv/app/app.js") initial_state)
    as (entry & s1 & Hrun & Hlater & _ & Hfail).
  destruct Hfail as [-> Hcache].
  - reflexivity.
  - right. right. exists (str "{"), parse_error. split; reflexivity.
  - exists s1. split; [exact Hrun|]. split; [exact Hcache|].
    exact (Hlater [] app_js_env).
Defined.

(* ===================================================================== *)
(** ** Frame resolver *)
(* ===================================================================== *)

Lemma first_caller_spec stack :
  match first_caller stack with
  | None => Forall skipped stack
  | Some fr =>
      is_caller (Some (fileName fr)) = true /\
      exists inner frame outer,
        stack = inner ++ frame :: outer /\
        Forall skipped inner /\
        getFileName frame = Some (fileName fr) /\
        getLineNumber frame = line fr /\
        getColumnNumber frame = column fr
  end.
Proof.
  induction stack as [|frame rest IH]; cbn [first_caller]; [constructor|].
  destruct (getFileName frame) as [f|] eqn:Hf.
  - destruct (is_caller (Some f)) eqn:Hc.
    + cbn [fileName line column]. split; [exact Hc|].
      exists [], frame, rest. repeat split; [constructor | exact Hf].
    + destruct (first_caller rest) as [fr|].
      * destruct IH as (Hq & inner & fr' & outer & -> & Hin & Hrest).
        split; [exact Hq|].
        exists (frame :: inner), fr', outer. repeat split; try apply Hrest.
        constructor; [unfold skipped; rewrite Hf; exact Hc | exact Hin].
      * constructor; [unfold skipped; rewrite Hf; exact Hc | exact IH].
  - destruct (first_caller rest) as [fr|].
    + destruct IH as (Hq & inner & fr' & outer & -> & Hin & Hrest).
      split; [exact Hq|].
      exists (frame :: inner), fr', outer. repeat split; try apply Hrest.
      constructor; [unfold skipped; rewrite Hf; reflexivity | exact Hin].
    + constructor; [unfold skipped; rewrite Hf; reflexivity | exact IH].
Qed.

Lemma is_caller_true f :
  is_caller (Some f) = true ->
  f <> [] /\ includes f node_modules = false /\ endsWith f own_file = false.
Proof.
  unfold is_caller. rewrite !andb_true_iff, !negb_true_iff.
  intros [[H1 H2] H3]. repeat split; try assumption.
  intros ->. discriminate H1.
Qed.

Lemma first_caller_none_iff stack :
  first_caller stack = None <-> Forall skipped stack.
Proof.
  pose proof (first_caller_spec stack) as H. split.
  - intros Hn. rewrite Hn in H. exact H.
  - intros Hall. destruct (first_caller stack) as [fr|]; [|reflexivity].
    destruct H as (Hq & inner & frame & outer & -> & _ & Hf & _).
    apply Forall_app in Hall as [_ Hall]. inversion Hall as [|? ? Hs _].
    unfold skipped in Hs. rewrite Hf in Hs. congruence.
Qed.

(** A frame that [getCallerFrame] returns names a file. *)
Lemma first_caller_names_file stack fr :
  first_caller stack = Some fr -> fileName fr <> [].
Proof.
  intros H. pose proof (first_caller_spec stack) as Hs. rewrite H in Hs.
  destruct Hs as [Hq _]. apply is_caller_true in Hq. tauto.
Qed.

(** When the stack is captured, [getCallerFrame] returns the first caller
    and leaves the state as it found it. *)
Lemma getCallerFrame_captured e s stack :
  capture e = Return stack ->
  getCallerFrame e s = (Return (first_caller stack), s).
Proof.
  intros H. unfold getCallerFrame. unfold_M. rewrite H.
  destruct s; reflexivity.
Qed.

Lemma skipped_iff_excluded frame : skipped frame <-> excluded frame.
Proof.
  unfold skipped, excluded, is_caller.
  destruct (getFileName frame) as [f|]; [|tauto].
  change node_modules with (str "node_modules").
  change own_file with (str "pg-filecommenter-sourcemap.js").
  rewrite !andb_false_iff, !negb_false_iff. split.
  - intros [[H | H] | H]; [left | right; left | right; right]; auto.
    destruct f; [reflexivity | discriminate H].
  - intros [-> | [H | H]]; auto.
Qed.

Lemma Forall_skipped_excluded stack :
  Forall skipped stack <-> Forall excluded stack.
Proof.
  split; intros H; induction H; constructor; auto;
    apply skipped_iff_excluded; assumption.
Qed.

(** C7, refuted as stated: line 56 takes for the module's own file every
    file whose name ends in [pg-filecommenter-sourcemap.js].  Called from a
    test file named [test-pg-filecommenter-sourcemap.js], the two frames of
    the module come first and do not qualify; the frame of the test file
    has a name that is not empty, holds no [node_modules] and is not the
    module's file, so it is the innermost frame that qualifies as the
    claim has it; yet it is passed over and the frame of the runner behind
    it is returned. *)
Lemma getCallerFrame_skips_file_named_alike :
  qualifies_as_claimed module_file
    (call_site "/srv/app/pg-filecommenter-sourcemap.js" 106 17) = false /\
  qualifies_as_claimed module_file
    (call_site "/srv/app/pg-filecommenter-sourcemap.js" 146 21) = false /\
  qualifies_as_claimed module_file test_file_call_site = true /\
  getCallerFrame test_file_env initial_state
  = (Return (Some {| fileName := str "/srv/app/runner.js";
                     line := Some 40%Z;
                     column := Some 1%Z |}), initial_state) /\
  getFileName test_file_call_site <> Some (str "/srv/app/runner.js").
Proof.
  split; [vm_compute; reflexivity|]. split; [vm_compute; reflexivity|].
  split; [vm_compute; reflexivity|]. split; [reflexivity|].
  intros H. vm_compute in H. discriminate H.
Qed.

(** C7, amended: for every captured stack, [getCallerFrame] returns [null]
    or a frame whose file name is not empty, does not contain
    [node_modules] and does not end in [pg-filecommenter-sourcemap.js] (the
    test by which line 56 tells the module's own file, and with it every
    other file so named); a frame it returns is the innermost frame of the
    stack that meets these three conditions: every frame before it has no
    file name or fails one of them; and it returns [null] exactly when no
    frame of the stack meets them. *)
Theorem getCallerFrame_innermost_caller
    (e : env) (s : state) (stack : list CallSite) :
  capture e = Return stack ->
  exists r s',
    getCallerFrame e s = (Return r, s') /\
    (r = None <-> Forall excluded stack) /\
    match r with
    | None => Forall excluded stack
    | Some fr =>
        fileName fr <> [] /\
        includes (fileName fr) (str "node_modules") = false /\
        endsWith (fileName fr) (str "pg-filecommenter-sourcemap.js") = false /\
        exists inner frame outer,
          stack = inner ++ frame :: outer /\
          Forall excluded inner /\
          getFileName frame = Some (fileName fr) /\
          getLineNumber frame = line fr /\
          getColumnNumber frame = column fr
    end.
Proof.
  intros H. exists (first_caller stack), s.
  split; [apply getCallerFrame_captured, H|].
  split; [rewrite <- Forall_skipped_excluded; apply first_caller_none_iff|].
  pose proof (first_caller_spec stack) as Hs.
  destruct (first_caller stack) as [fr|];
    [|apply Forall_skipped_excluded, Hs].
  destruct Hs as (Hq & inner & frame & outer & Hstack & Hin & Hrest).
  destruct (is_caller_true _ Hq) as (H1 & H2 & H3).
  repeat split; try assumption.
  exists inner, frame, outer.
  split; [exact Hstack|]. split; [|exact Hrest].
  apply Forall_skipped_excluded, Hin.
Qed.

Lemma getCallerFrame_innermost_caller_witness :
  exists r s',
    getCallerFrame test_file_env initial_state = (Return r, s') /\
    (r = None <-> Forall excluded test_file_stack) /\
    match r with
    | None => Forall excluded test_file_stack
    | Some fr =>
        fileName fr <> [] /\
        includes (fileName fr) (str "node_modules") = false /\
        endsWith (fileName fr) (str "pg-filecommenter-sourcemap.js") = false /\
        exists inner frame outer,
          test_file_stack = inner ++ frame :: outer /\
          Forall excluded inner /\
          getFileName frame = Some (fileName fr) /\
          getLineNumber frame = line fr /\
          getColumnNumber frame = column fr
    end.
Proof.
  exact (getCallerFrame_innermost_caller
           test_file_env initial_state test_file_stack eq_refl).
Defined.

Example getCallerFrame_app_js :
  getCallerFrame app_js_env initial_state
  = (Return (Some app_js_frame), initial_state).
Proof. reflexivity. Qed.

Example first_caller_none :
  first_caller
    [ call_site "/srv/app/pg-filecommenter-sourcemap.js" 106 17;
      call_site "/srv/app/node_modules/pg/lib/client.js" 20 5;
      {| getFileName := None; getLineNumber := None;
         getColumnNumber := None |} ] = None.
Proof. reflexivity. Qed.

(** C9, refuted as stated: nothing catches a failing stack capture, so the
    handler that [getCallerFrame] installed stays in
    [Error.prepareStackTrace]. *)
Lemma getCallerFrame_capture_throws_not_restored :
  let '(r, s') := getCallerFrame failing_capture_env initial_state in
  r = Throw (VError RangeError) /\
  prepareStackTrace initial_state = VUndefined /\
  prepareStackTrace s' = VFunction FnRawFrames /\
  prepareStackTrace s' <> prepareStackTrace initial_state.
Proof. repeat split; try reflexivity. discriminate. Qed.

(** C9, amended: whenever the stack capture completes, [getCallerFrame]
    returns with [Error.prepareStackTrace] holding the value it had on
    entry, whether or not a frame qualifies; nothing else of the state has
    changed either. *)
Theorem getCallerFrame_restores_prepareStackTrace
    (e : env) (s : state) (stack : list CallSite) :
  capture e = Return stack ->
  exists r s',
    getCallerFrame e s = (Return r, s') /\
    prepareStackTrace s' = prepareStackTrace s /\
    s' = s.
Proof.
  intros H. exists (first_caller stack), s.
  split; [apply getCallerFrame_captured, H | split; reflexivity].
Qed.

Lemma getCallerFrame_restores_prepareStackTrace_witness :
  exists r s',
    getCallerFrame app_js_env initial_state = (Return r, s') /\
    prepareStackTrace s' = VUndefined.
Proof.
  destruct (getCallerFrame_restores_prepareStackTrace
              app_js_env initial_state app_js_stack eq_refl)
    as (r & s' & Hrun & Hp & _).
  exists r, s'. split; [exact Hrun | exact Hp].
Defined.

(* ===================================================================== *)
(** ** Position translator *)
(* ===================================================================== *)

Lemma upto_slash_no_slash s : ~ In slash (upto_slash s).
Proof.
  induction s as [|c s IH]; simpl; [tauto|].
  destruct (N.eqb_spec c slash); simpl; [tauto|].
  intros [H | H]; [congruence | exact (IH H)].
Qed.

Lemma drop_slashes_decompose s :
  exists t, s = t ++ drop_slashes s /\ Forall (fun c => c = slash) t.
Proof.
  induction s as [|c s (t & Ht & Hall)]; simpl.
  - exists []. split; [reflexivity | constructor].
  - destruct (N.eqb_spec c slash) as [-> | Hne].
    + exists (slash :: t). split; [simpl; congruence | constructor; auto].
    + exists []. split; [reflexivity | constructor].
Qed.

Lemma upto_slash_decompose s :
  exists rest, s = upto_slash s ++ rest /\
               (rest = [] \/ exists r, rest = slash :: r).
Proof.
  induction s as [|c s (rest & Hs & Hrest)]; simpl.
  - exists []. auto.
  - destruct (N.eqb_spec c slash) as [-> | Hne].
    + exists (slash :: s). split; [reflexivity | right; eauto].
    + exists rest. split; [simpl; congruence | exact Hrest].
Qed.

(** [basename] strips every directory component: the path is a directory
    part that is empty or ends in a separator, then the base name, which
    holds no separator, then trailing separators only. *)
Lemma basename_spec p :
  ~ In slash (basename p) /\
  exists dir trail,
    p = dir ++ basename p ++ trail /\
    (dir = [] \/ endsWith dir [slash] = true) /\
    Forall (fun c => c = slash) trail.
Proof.
  unfold basename. split.
  - rewrite <- in_rev. apply upto_slash_no_slash.
  - destruct (drop_slashes_decompose (rev p)) as (t & Ht & Hall).
    destruct (upto_slash_decompose (drop_slashes (rev p)))
      as (rest & Hd & Hrest).
    exists (rev rest), (rev t). split; [|split].
    + set (b := upto_slash (drop_slashes (rev p))) in *.
      assert (rev p = t ++ b ++ rest) as H by congruence.
      apply (f_equal (@rev N)) in H.
      rewrite rev_involutive, !rev_app_distr, <- app_assoc in H. exact H.
    + destruct Hrest as [-> | [r ->]]; [left; reflexivity | right].
      simpl. apply endsWith_app. exact [].
    + apply List.Forall_rev. exact Hall.
Qed.

Lemma resolveOriginalPosition_guard_passed e fr ln col :
  fileName fr <> [] ->
  line fr = Some ln -> column fr = Some col ->
  ln <> 0%Z -> col <> 0%Z ->
  resolveOriginalPosition e (Some fr)
  = let fallback := compiled_position (fileName fr) ln col in
    let* mapConsumer := loadSourceMapForFile e (fileName fr) in
    match mapConsumer with
    | None => ret (Some fallback)
    | Some c =>
        let* originalPos := lift (originalPositionFor c ln col) in
        match originalPos with
        | Some p =>
            match op_source p with
            | Some src =>
                if negb (is_empty src)
                then ret (Some (original_position_string p src))
                else ret (Some fallback)
            | None => ret (Some fallback)
            end
        | None => ret (Some fallback)
        end
    end.
Proof.
  intros Hf Hl Hc Hln Hcol. unfold resolveOriginalPosition.
  rewrite Hl, Hc. simpl.
  destruct (fileName fr); [congruence|]. simpl.
  destruct (Z.eqb_spec ln 0); [congruence|].
  destruct (Z.eqb_spec col 0); [congruence|]. reflexivity.
Qed.

(** C2, refuted as stated: a mapping whose source is the empty string is
    not [null], yet the test [originalPos.source] fails on it and the
    compiled position is returned. *)
Lemma resolveOriginalPosition_empty_source_falls_back :
  let s := with_cache initial_state (fileName app_js_frame)
                      (Some unnamed_source_consumer) in
  first_caller app_js_stack = Some app_js_frame
  /\ sourceMapCache s !! fileName app_js_frame
     = Some (Some unnamed_source_consumer)
  /\ originalPositionFor unnamed_source_consumer 7 3
     = Return (Some {| op_source := Some []; op_line := Some 5%Z;
                       op_column := Some 10%Z |})
  /\ resolveOriginalPosition app_js_env (Some app_js_frame) s
     = (Return (Some (str "app.js:7:3")), s)
  /\ str "app.js:7:3" <> [] ++ colon ++ show (Some 5%Z) ++ colon ++ show (Some 10%Z).
Proof.
  split; [reflexivity|]. split; [apply lookup_insert_eq|].
  split; [reflexivity|]. split; [reflexivity|].
  intros H. vm_compute in H. discriminate H.
Qed.

Lemma resolveOriginalPosition_mapped_run e s fr ln col c p src :
  fileName fr <> [] ->
  line fr = Some ln -> column fr = Some col ->
  ln <> 0%Z -> col <> 0%Z ->
  sourceMapCache s !! fileName fr = Some (Some c) ->
  originalPositionFor c ln col = Return (Some p) ->
  op_source p = Some src ->
  src <> [] ->
  resolveOriginalPosition e (Some fr) s
  = (Return (Some (original_position_string p src)), s).
Proof.
  intros Hf Hl Hc Hln Hcol Hcache Hpos Hsrc Hne.
  rewrite (resolveOriginalPosition_guard_passed e fr ln col) by assumption.
  cbv zeta. unfold bind at 1.
  rewrite (loadSourceMapForFile_hit _ _ _ _ Hcache).
  unfold bind, lift. rewrite Hpos, Hsrc.
  destruct src; [congruence|]. reflexivity.
Qed.

(** C2, amended: for every frame that [getCallerFrame] returns, with line
    and column at least 1, if a source map is cached for its file and the
    consumer's [originalPositionFor] yields a source that is neither [null]
    nor the empty string, [resolveOriginalPosition] returns
    [<source>:<line>:<column>] of the original position, not of the
    compiled one, and changes nothing. *)
Theorem resolveOriginalPosition_mapped
    (e : env) (s : state) (stack : list CallSite) (fr : Frame) (ln col : Z)
    (c : consumer) (p : original_position) (src : jsstring) :
  first_caller stack = Some fr ->
  line fr = Some ln -> column fr = Some col ->
  (1 <= ln)%Z -> (1 <= col)%Z ->
  sourceMapCache s !! fileName fr = Some (Some c) ->
  originalPositionFor c ln col = Return (Some p) ->
  op_source p = Some src ->
  src <> [] ->
  resolveOriginalPosition e (Some fr) s
  = (Return (Some (src ++ colon ++ show (op_line p)
                       ++ colon ++ show (op_column p))), s).
Proof.
  intros Hfr Hl Hc Hln Hcol Hcache Hpos Hsrc Hne.
  apply (resolveOriginalPosition_mapped_run e s fr ln col c p src);
    try assumption; try lia.
  exact (first_caller_names_file _ _ Hfr).
Qed.

Lemma resolveOriginalPosition_mapped_witness :
  let s := with_cache initial_state (fileName app_js_frame)
                      (Some app_ts_consumer) in
  resolveOriginalPosition app_js_env (Some app_js_frame) s
  = (Return (Some (str "app.ts:5:10")), s).
Proof.
  intros s.
  apply (resolveOriginalPosition_mapped app_js_env s app_js_stack
           app_js_frame 7 3 app_ts_consumer
           {| op_source := Some (str "app.ts"); op_line := Some 5%Z;
              op_column := Some 10%Z |}
           (str "app.ts")).
  - reflexivity.
  - reflexivity.
  - reflexivity.
  - lia.
  - lia.
  - apply lookup_insert_eq.
  - reflexivity.
  - reflexivity.
  - discriminate.
Defined.

Lemma resolveOriginalPosition_no_map_run e s fr ln col :
  fileName fr <> [] ->
  line fr = Some ln -> column fr = Some col ->
  ln <> 0%Z -> col <> 0%Z ->
  no_map_available e s (fileName fr) ->
  exists s',
    resolveOriginalPosition e (Some fr) s
    = (Return (Some (compiled_position (fileName fr) ln col)), s') /\
    sourceMapCache s' !! fileName fr = Some None.
Proof.
  intros Hf Hl Hc Hln Hcol Hno.
  rewrite (resolveOriginalPosition_guard_passed e fr ln col) by assumption.
  cbv zeta. unfold bind at 1.
  destruct Hno as [Hcached | [Hmiss Hun]].
  - rewrite (loadSourceMapForFile_hit _ _ _ _ Hcached).
    exists s. split; [reflexivity | exact Hcached].
  - destruct (loadSourceMapForFile_miss e _ s Hmiss)
      as (entry & s1 & -> & Hcache & _ & _ & Hnone).
    rewrite (Hnone Hun) in *. exists s1. split; [reflexivity|].
    rewrite Hcache. apply lookup_insert_eq.
Qed.

(** The guard of line 75 is on truthiness: a frame without a file name
    resolves to [null], whatever its line and column. *)
Example resolveOriginalPosition_empty_fileName :
  resolveOriginalPosition app_js_env
    (Some {| fileName := []; line := Some 7%Z; column := Some 3%Z |})
    initial_state
  = (Return None, initial_state).
Proof. reflexivity. Qed.

(** C3: for every frame that [getCallerFrame] returns, with line and column
    at least 1, when no source map is available for its file (its absence
    is cached, or there is no [.map] file, or reading or parsing it fails),
    [resolveOriginalPosition] returns exactly
    [<basename(fileName)>:<line>:<column>]; the base name holds no
    separator and is what remains of the path once its directory part and
    its trailing separators are taken away.  In particular [SELECT NOW();]
    issued at line 7, column 3 of [app.js], which has no map, becomes
    [SELECT NOW() /* file=app.js:7:3 */;]. *)
Theorem resolveOriginalPosition_no_map
    (e : env) (s : state) (stack : list CallSite) (fr : Frame) (ln col : Z) :
  first_caller stack = Some fr ->
  line fr = Some ln -> column fr = Some col ->
  (1 <= ln)%Z -> (1 <= col)%Z ->
  no_map_available e s (fileName fr) ->
  (exists s',
      resolveOriginalPosition e (Some fr) s
      = (Return (Some (basename (fileName fr)
                         ++ colon ++ number_to_string ln
                         ++ colon ++ number_to_string col)), s')) /\
  ~ In slash (basename (fileName fr)) /\
  (exists dir trail,
      fileName fr = dir ++ basename (fileName fr) ++ trail /\
      (dir = [] \/ endsWith dir [slash] = true) /\
      Forall (fun c => c = slash) trail) /\
  (forall values,
      fst (addFileCommentToQuery app_js_env
             (VString (str "SELECT NOW();")) values initial_state)
      = Return (VString (str "SELECT NOW() /* file=app.js:7:3 */;"), values)).
Proof.
  intros Hfr Hl Hc Hln Hcol Hno.
  split; [|split; [apply basename_spec | split; [apply basename_spec|]]].
  - destruct (resolveOriginalPosition_no_map_run e s fr ln col)
      as (s' & Hrun & _); try assumption; try lia.
    + exact (first_caller_names_file _ _ Hfr).
    + exists s'. exact Hrun.
  - intros values. reflexivity.
Qed.

Lemma resolveOriginalPosition_no_map_witness :
  exists s',
    resolveOriginalPosition app_js_env (Some app_js_frame) initial_state
    = (Return (Some (str "app.js:7:3")), s').
Proof.
  destruct (resolveOriginalPosition_no_map
              app_js_env initial_state app_js_stack app_js_frame 7 3)
    as [H _].
  - reflexivity.
  - reflexivity.
  - reflexivity.
  - lia.
  - lia.
  - right. split; [reflexivity | left; reflexivity].
  - exact H.
Defined.

Example addFileCommentToQuery_app_js_state :
  snd (addFileCommentToQuery app_js_env
         (VString (str "SELECT NOW();")) VUndefined initial_state)
  = {| sourceMapCache := <[str "/srv/app/app.js" := None]> ∅;
       prepareStackTrace := VUndefined;
       heap := ∅;
       log := [EExists (str "/srv/app/app.js.map")] |}.
Proof. reflexivity. Qed.

(** The mapped scenario of the specification, through the whole
    pipeline: the map is read and parsed once, then cached. *)
Example addFileCommentToQuery_mapped :
  let once := addFileCommentToQuery mapped_env
                (VString (str "SELECT NOW();")) VUndefined initial_state in
  fst once
  = Return (VString (str "SELECT NOW() /* file=app.ts:5:10 */;"), VUndefined)
  /\ log (snd once)
     = [EExists (str "/srv/app/app.js.map");
        ERead (str "/srv/app/app.js.map");
        EParse (str "{...}")]
  /\ log (snd (addFileCommentToQuery mapped_env
                 (VString (str "SELECT 1")) VUndefined (snd once)))
     = log (snd once).
Proof. repeat split; reflexivity. Qed.

(* ===================================================================== *)
(** ** Query annotator, structured form *)
(* ===================================================================== *)

Arguments includes : simpl never.
Arguments trim : simpl never.
Arguments replace_semi_at_end : simpl never.

Lemma includes_appended a comment b :
  includes (a ++ str " " ++ comment ++ b) comment = true.
Proof.
  apply includes_iff. exists (a ++ str " "), b.
  rewrite <- app_assoc. reflexivity.
Qed.

Lemma lookup_object_insert h l o : lookup_object (<[l := o]> h) l = o.
Proof. unfold lookup_object. rewrite lookup_insert_eq. reflexivity. Qed.

(** What [annotate] does to a query object, by the value of its [text]. *)
Lemma annotate_object_falsy comment l values s :
  truthy (default VUndefined
            (props (lookup_object (heap s) l) !! text_key)) = false ->
  annotate comment (VObject l) values s = (Return (VObject l, values), s).
Proof.
  intros H. unfold annotate, get_text. unfold_M. simpl. rewrite H.
  reflexivity.
Qed.

Lemma annotate_object_present comment l values s t :
  props (lookup_object (heap s) l) !! text_key = Some (VString t) ->
  t <> [] ->
  includes t comment = true ->
  annotate comment (VObject l) values s = (Return (VObject l, values), s).
Proof.
  intros H Ht Hi. unfold annotate, get_text, call_includes. unfold_M.
  simpl. rewrite H. simpl. destruct t; [congruence|]. simpl.
  rewrite Hi. reflexivity.
Qed.

Lemma annotate_object_fresh comment l values s t :
  props (lookup_object (heap s) l) !! text_key = Some (VString t) ->
  t <> [] ->
  includes t comment = false ->
  annotate comment (VObject l) values s
  = (Return (VObject l, values),
     {| sourceMapCache := sourceMapCache s;
        prepareStackTrace := prepareStackTrace s;
        heap := <[l := {| elements := elements (lookup_object (heap s) l);
                          props := <[text_key :=
                                       VString (annotate_text_field comment t)]>
                                     (props (lookup_object (heap s) l)) |}]>
                  (heap s);
        log := log s |}).
Proof.
  intros H Ht Hi.
  unfold annotate, get_text, call_includes, call_trim, set_text,
    annotate_text_field. unfold_M.
  simpl. rewrite H. simpl. destruct t; [congruence|]. simpl.
  rewrite Hi. reflexivity.
Qed.

Lemma annotate_object_cases comment l values s r s1 :
  annotate comment (VObject l) values s = (r, s1) ->
  (s1 = s /\
   (r = Return (VObject l, values) \/ r = Throw (VError TypeError))) \/
  (exists t,
      props (lookup_object (heap s) l) !! text_key = Some (VString t) /\
      t <> [] /\ includes t comment = false).
Proof.
  intros H.
  destruct (props (lookup_object (heap s) l) !! text_key) as [tv|] eqn:E.
  2:{ rewrite annotate_object_falsy in H by (rewrite E; reflexivity).
      injection H as <- <-. left. auto. }
  destruct (truthy tv) eqn:Ht.
  2:{ rewrite annotate_object_falsy in H by (rewrite E; exact Ht).
      injection H as <- <-. left. auto. }
  unfold annotate, get_text, call_includes, call_trim, set_text in H.
  unfold_M. simpl in H. rewrite E in H. simpl in H. rewrite Ht in H.
  destruct tv; simpl in *; try discriminate; try (injection H as <- <-; left; auto; fail).
  all: try (destruct b; try discriminate; injection H as <- <-; left; auto; fail).
  - destruct (includes s0 comment) eqn:Hi.
    + simpl in H. injection H as <- <-. left. auto.
    + right. exists s0. repeat split; [|exact Hi].
      intros ->. discriminate Ht.
  - destruct (elements (lookup_object (heap s) l0)) as [els|]; simpl in H.
    + destruct (existsb (is_string_value comment) els); simpl in H;
        injection H as <- <-; left; auto.
    + injection H as <- <-. left. auto.
Qed.

Lemma annotate_text_field_not_empty comment t :
  annotate_text_field comment t <> [].
Proof.
  unfold annotate_text_field.
  destruct (replace_semi_at_end (trim t)); discriminate.
Qed.

(** C4: annotating a query object a second time with the same position
    gives back what the first annotation gave, result and store alike: the
    comment written by the first pass is found by the second, which writes
    nothing.  The object is handed back by reference with the values it
    came with; when its text already holds the comment nothing is written
    at all, and otherwise only its [text] is; every other field, the
    elements, every other object of the store, the cache,
    [Error.prepareStackTrace] and the log are as before. *)
Theorem annotate_object_idempotent
    (pos : option jsstring) (l : loc) (values : value) (s : state) :
  let comment := comment_of pos in
  let once := annotate comment (VObject l) values s in
  annotate comment (VObject l) values (snd once) = once /\
  (forall res, fst once = Return res -> res = (VObject l, values)) /\
  (forall t,
      props (lookup_object (heap s) l) !! text_key = Some (VString t) ->
      includes t comment = true ->
      snd once = s) /\
  (forall t,
      props (lookup_object (heap s) l) !! text_key = Some (VString t) ->
      t <> [] ->
      includes t comment = false ->
      props (lookup_object (heap (snd once)) l) !! text_key
      = Some (VString (annotate_text_field comment t))) /\
  (forall k,
      k <> text_key ->
      props (lookup_object (heap (snd once)) l) !! k
      = props (lookup_object (heap s) l) !! k) /\
  elements (lookup_object (heap (snd once)) l)
  = elements (lookup_object (heap s) l) /\
  (forall l', l' <> l -> heap (snd once) !! l' = heap s !! l') /\
  sourceMapCache (snd once) = sourceMapCache s /\
  prepareStackTrace (snd once) = prepareStackTrace s /\
  log (snd once) = log s.
Proof.
  intros comment once. subst once.
  destruct (annotate comment (VObject l) values s) as [r s1] eqn:H.
  destruct (annotate_object_cases _ _ _ _ _ _ H)
    as [[-> Hr] | (t & Ht & Hne & Hi)]; cbn [fst snd].
  - split; [exact H|]. split.
    { intros res ->. destruct Hr as [Hr | Hr]; congruence. }
    split; [reflexivity|]. split; [|repeat split].
    intros t Ht Hne Hi.
    rewrite (annotate_object_fresh _ _ _ _ _ Ht Hne Hi) in H.
    injection H as _ Hs. rewrite <- Hs at 1. cbn [heap].
    rewrite lookup_object_insert. cbn [props]. apply lookup_insert_eq.
  - rewrite (annotate_object_fresh _ _ _ _ _ Ht Hne Hi) in H.
    injection H as <- <-. cbn [heap sourceMapCache prepareStackTrace log].
    rewrite lookup_object_insert. cbn [props elements].
    split.
    { apply (annotate_object_present _ _ _ _ (annotate_text_field comment t)).
      - cbn [heap]. rewrite lookup_object_insert. cbn [props].
        apply lookup_insert_eq.
      - apply annotate_text_field_not_empty.
      - apply includes_appended. }
    split; [intros res [= <-]; reflexivity|].
    split; [intros t' Ht' Hi'; congruence|].
    split; [intros t' Ht' _ _; rewrite lookup_insert_eq; congruence|].
    split; [intros k Hk; apply lookup_insert_ne; congruence|].
    split; [reflexivity|].
    split; [intros l' Hl'; apply lookup_insert_ne; congruence|].
    repeat split.
Qed.

Lemma annotate_object_idempotent_witness :
  let s := with_object select_1_config in
  let once := annotate (comment_of None) (VObject 1) VUndefined s in
  annotate (comment_of None) (VObject 1) VUndefined (snd once) = once /\
  props (lookup_object (heap (snd once)) 1) !! text_key
  = Some (VString (str "SELECT 1 /* file=unknown */;")) /\
  props (lookup_object (heap (snd once)) 1) !! values_key
  = Some (VObject 2).
Proof.
  intros s once. subst once.
  destruct (annotate_object_idempotent None 1 VUndefined s)
    as (Hidem & _ & _ & Htext & Hother & _).
  cbv zeta in Hidem, Htext, Hother.
  split; [exact Hidem|]. split.
  - apply (Htext (str "SELECT 1")).
    + reflexivity.
    + discriminate.
    + reflexivity.
  - rewrite (Hother values_key); [reflexivity | discriminate].
Defined.

(** [example-query.js]: the structured scenario of the specification. *)
Example annotate_object_unknown :
  let once := annotate (comment_of None) (VObject 1) VUndefined
                       (with_object select_1_config) in
  fst once = Return (VObject 1, VUndefined) /\
  props (lookup_object (heap (snd once)) 1) !! text_key
  = Some (VString (str "SELECT 1 /* file=unknown */;")).
Proof. split; reflexivity. Qed.

(** A payload that is no string, not [null], and no object with a truthy
    [text] comes back as it is. *)
Lemma annotate_unrecognised comment text values s :
  match text with
  | VString _ | VNull => False
  | VObject l =>
      truthy (default VUndefined
                (props (lookup_object (heap s) l) !! text_key)) = false
  | _ => True
  end ->
  annotate comment text values s = (Return (text, values), s).
Proof.
  destruct text; try tauto; try reflexivity.
  apply annotate_object_falsy.
Qed.

(** C5 fails on [null]: [typeof null] is ['object'], so the test of line 120
    goes on to read [null.text], which throws; the promise of
    [addFileCommentToQuery] is rejected and the wrapped query is never
    called. *)
Theorem annotate_null_throws :
  (forall comment values s,
      annotate comment VNull values s = (Throw (VError TypeError), s)) /\
  (forall values,
      fst (addFileCommentToQuery app_js_env VNull values initial_state)
      = Throw (VError TypeError)) /\
  (let '(r, s') := patchedQuery counting_query app_js_env [VNull]
                                initial_state in
   r = RPromise (Throw (VError TypeError)) /\ orig_calls (log s') = []).
Proof. repeat split; reflexivity. Qed.

(* ===================================================================== *)
(** ** Pool interceptor *)
(* ===================================================================== *)

Lemma orig_calls_app a b : orig_calls (a ++ b) = orig_calls a ++ orig_calls b.
Proof.
  induction a as [|ev a IH]; [reflexivity|].
  destruct ev; simpl; try exact IH. rewrite IH. reflexivity.
Qed.

Lemma callback_calls_app a b :
  callback_calls (a ++ b) = callback_calls a ++ callback_calls b.
Proof.
  induction a as [|ev a IH]; [reflexivity|].
  destruct ev; simpl; try exact IH. rewrite IH. reflexivity.
Qed.

Lemma quiet_refl s : quiet s s.
Proof. split; reflexivity. Qed.

Lemma quiet_trans s1 s2 s3 : quiet s1 s2 -> quiet s2 s3 -> quiet s1 s3.
Proof. unfold quiet. intros [] []. split; congruence. Qed.

Lemma loadSourceMapForFile_quiet e p s :
  quiet s (snd (loadSourceMapForFile e p s)).
Proof.
  unfold loadSourceMapForFile, quiet. unfold_M.
  destruct (sourceMapCache s !! p); simpl; [split; reflexivity|].
  destruct (existsSync e (p ++ str ".map")); simpl.
  - destruct (readFileSync e (p ++ str ".map")) as [raw|]; simpl.
    + destruct (newSourceMapConsumer e raw); simpl;
        rewrite !orig_calls_app, !callback_calls_app; simpl;
        rewrite !app_nil_r; split; reflexivity.
    + rewrite !orig_calls_app, !callback_calls_app; simpl;
        rewrite !app_nil_r; split; reflexivity.
  - rewrite !orig_calls_app, !callback_calls_app; simpl;
      rewrite !app_nil_r; split; reflexivity.
Qed.

Lemma getCallerFrame_quiet e s : quiet s (snd (getCallerFrame e s)).
Proof.
  unfold getCallerFrame. unfold_M. simpl.
  destruct (capture e); split; reflexivity.
Qed.

Lemma resolveOriginalPosition_quiet e frame s :
  quiet s (snd (resolveOriginalPosition e frame s)).
Proof.
  unfold resolveOriginalPosition.
  destruct frame as [fr|]; [|apply quiet_refl].
  destruct (is_empty (fileName fr) || falsy_number (line fr)
            || falsy_number (column fr)); [apply quiet_refl|].
  destruct (line fr) as [ln|]; [|apply quiet_refl].
  destruct (column fr) as [col|]; [|apply quiet_refl].
  cbv zeta. unfold bind at 1.
  pose proof (loadSourceMapForFile_quiet e (fileName fr) s) as Hq.
  destruct (loadSourceMapForFile e (fileName fr) s) as [[[c|]|x] s1];
    simpl in Hq; try exact Hq.
  unfold bind, lift, ret.
  destruct (originalPositionFor c ln col) as [[p|]|x]; try exact Hq.
  destruct (op_source p) as [src|]; [|exact Hq].
  destruct (negb (is_empty src)); exact Hq.
Qed.

Lemma annotate_returns_values comment text values s :
  let once := annotate comment text values s in
  log (snd once) = log s /\
  forall res, fst once = Return res -> snd res = values.
Proof.
  destruct text; try (split; [reflexivity | intros res [= <-]; reflexivity]).
  cbv zeta.
  destruct (annotate comment (VObject l) values s) as [r s1] eqn:Hrun.
  destruct (annotate_object_cases _ _ _ _ _ _ Hrun)
    as [[-> Hr] | (t & Ht & Hne & Hi)]; cbn [fst snd].
  - split; [reflexivity|]. intros res ->.
    destruct Hr as [Hr | Hr]; [injection Hr as -> | discriminate Hr].
    reflexivity.
  - rewrite (annotate_object_fresh _ _ _ _ _ Ht Hne Hi) in Hrun.
    injection Hrun as <- <-. split; [reflexivity|].
    intros res [= <-]. reflexivity.
Qed.

Lemma addFileCommentToQuery_quiet e text values s :
  let once := addFileCommentToQuery e text values s in
  quiet s (snd once) /\
  forall res, fst once = Return res -> snd res = values.
Proof.
  cbv zeta. unfold addFileCommentToQuery, bind.
  pose proof (getCallerFrame_quiet e s) as H1.
  destruct (getCallerFrame e s) as [[frame|x] s1]; cbn [snd] in H1;
    [|split; [exact H1 | discriminate]].
  pose proof (resolveOriginalPosition_quiet e frame s1) as H2.
  destruct (resolveOriginalPosition e frame s1) as [[pos|x] s2];
    cbn [snd] in H2;
    [|split; [exact (quiet_trans _ _ _ H1 H2) | discriminate]].
  destruct (annotate_returns_values (comment_of pos) text values s2)
    as [Hlog Hres].
  split; [|exact Hres].
  apply (quiet_trans _ _ _ H1). apply (quiet_trans _ _ _ H2).
  unfold quiet. rewrite Hlog. split; reflexivity.
Qed.

(** The wrapper, step by step: the annotation, then the forwarded call,
    then the delivery of its settlement. *)
Lemma patchedQuery_run orig e args s ann s1 :
  addFileCommentToQuery e (arg 0 args) (effective_values args) s = (ann, s1) ->
  let promise :=
    match ann with
    | Return (newText, newValues) => orig [newText; newValues]
    | Throw err => Throw err
    end in
  let s2 :=
    match ann with
    | Return (newText, newValues) =>
        add_event s1 (EOrigQuery [newText; newValues])
    | Throw _ => s1
    end in
  patchedQuery orig e args s
  = if truthy (effective_callback args)
    then (RUndefined, snd (deliver (effective_callback args) promise s2))
    else (RPromise promise, s2).
Proof.
  intros H. unfold patchedQuery, effective_callback, effective_values in *.
  destruct (is_function (arg 1 args)); unfold bind at 1; rewrite H;
    destruct ann as [[newText newValues]|err]; reflexivity.
Qed.

Lemma deliver_function f promise s :
  snd (deliver (VFunction f) promise s)
  = add_event s (ECallback f (callback_args promise)).
Proof. destruct promise; reflexivity. Qed.


Lemma patchedQuery_third_ignored orig e args s f :
  arg 1 args = VFunction f ->
  patchedQuery orig e args s
  = patchedQuery orig e [arg 0 args; VFunction f] s.
Proof.
  intros Hf. unfold patchedQuery.
  cbn [arg lookup list_lookup default from_option].
  rewrite Hf. reflexivity.
Qed.

(** C10, refuted as stated: a query object whose [text] is a number makes
    the annotation throw ([text.text.includes] is not a function); the
    promise is rejected and the wrapped query is not called at all. *)
Lemma patchedQuery_numeric_text_not_forwarded :
  let '(r, s') := patchedQuery counting_query app_js_env [VObject 1]
                               (with_object numeric_text_config) in
  r = RPromise (Throw (VError TypeError)) /\ orig_calls (log s') = [].
Proof. split; reflexivity. Qed.

(** C10, amended: in every call of the patched [pool.query] whose
    annotation step completes, whatever the callback and the arity, the
    wrapped query is called exactly once more, with exactly two arguments,
    the annotated query and the values of the call, so never with the
    callback as a third; when the annotation throws it is not called.  When
    the second argument is a function it is the callback and the values are
    [undefined]; a third argument is then ignored altogether (the call
    behaves as the same call without it) and the one callback called is the
    second argument. *)
Theorem patchedQuery_forwards_two_arguments
    (orig : list value -> outcome value) (e : env)
    (args : list value) (s : state) :
  let values := effective_values args in
  let annotated := fst (addFileCommentToQuery e (arg 0 args) values s) in
  let after := snd (patchedQuery orig e args s) in
  (forall newText newValues,
      annotated = Return (newText, newValues) ->
      newValues = values /\
      orig_calls (log after) = orig_calls (log s) ++ [[newText; values]]) /\
  (forall err,
      annotated = Throw err ->
      orig_calls (log after) = orig_calls (log s)) /\
  (forall f,
      arg 1 args = VFunction f ->
      values = VUndefined /\
      patchedQuery orig e args s
      = patchedQuery orig e [arg 0 args; VFunction f] s /\
      exists a,
        callback_calls (log after) = callback_calls (log s) ++ [(f, a)]).
Proof.
  intros values annotated after. subst values annotated after.
  destruct (addFileCommentToQuery e (arg 0 args) (effective_values args) s)
    as [ann s1] eqn:Hann.
  pose proof (addFileCommentToQuery_quiet
                e (arg 0 args) (effective_values args) s) as [[Ho Hc] Hv].
  rewrite Hann in Ho, Hc, Hv. cbn [fst snd] in *.
  pose proof (patchedQuery_third_ignored orig e args s) as Hthird.
  rewrite (patchedQuery_run _ _ _ _ _ _ Hann) in Hthird |- *.
  split; [|split].
  - intros newText newValues ->.
    specialize (Hv _ eq_refl). cbn [snd] in Hv. subst newValues.
    split; [reflexivity|].
    destruct (truthy (effective_callback args)); cbn [snd];
      [destruct (effective_callback args), (orig _); cbn [deliver emit modify snd log]|];
      cbn [add_event log]; rewrite ?orig_calls_app, Ho; simpl;
      rewrite ?app_nil_r; reflexivity.
  - intros err ->.
    destruct (truthy (effective_callback args)); cbn [snd];
      [destruct (effective_callback args); cbn [deliver emit modify snd log];
       rewrite ?orig_calls_app, Ho; simpl; rewrite ?app_nil_r|];
      try reflexivity; exact Ho.
  - intros f Hf. split; [|split].
    + unfold effective_values. rewrite Hf. reflexivity.
    + apply Hthird, Hf.
    + unfold effective_callback. rewrite Hf. cbn [is_function typeof truthy].
      cbn [snd]. rewrite deliver_function.
      destruct ann as [[newText newValues]|err]; eexists;
        cbn [add_event log]; rewrite ?callback_calls_app, Hc; simpl;
        rewrite ?app_nil_r; reflexivity.
Qed.

Lemma patchedQuery_forwards_two_arguments_witness :
  let after := snd (patchedQuery counting_query app_js_env
                      two_callbacks_call initial_state) in
  orig_calls (log after)
  = [[VString (str "SELECT NOW() /* file=app.js:7:3 */;"); VUndefined]] /\
  exists a, callback_calls (log after) = [(FnUser 1, a)].
Proof.
  destruct (patchedQuery_forwards_two_arguments
              counting_query app_js_env two_callbacks_call initial_state)
    as (Hfwd & _ & Hcb).
  split.
  - exact (proj2 (Hfwd (VString (str "SELECT NOW() /* file=app.js:7:3 */;"))
                       VUndefined eq_refl)).
  - exact (proj2 (proj2 (Hcb (FnUser 1) eq_refl))).
Defined.

Example patchedQuery_two_callbacks_log :
  callback_calls
    (log (snd (patchedQuery counting_query app_js_env
                 two_callbacks_call initial_state)))
  = [(FnUser 1, [VNull; VNumber 2])].
Proof. reflexivity. Qed.

(** C6: when a callback function is supplied, as the second argument or,
    after values that are no function, as the third, the patched
    [pool.query] returns [undefined]; the forwarded call is made and then
    the callback is called, with [(null, result)] when the forwarded call
    succeeds with [result] and with [(error)] when it fails with [error].
    When no callback is supplied, a promise is returned, and it settles as
    the forwarded call does. *)
Theorem patchedQuery_callback_contract
    (orig : list value -> outcome value) (e : env)
    (args : list value) (s : state) :
  let once := addFileCommentToQuery e (arg 0 args) (effective_values args) s in
  let result := patchedQuery orig e args s in
  (forall f,
      arg 1 args = VFunction f \/
      (is_function (arg 1 args) = false /\ arg 2 args = VFunction f) ->
      fst result = RUndefined /\
      (forall newText newValues res,
          fst once = Return (newText, newValues) ->
          orig [newText; newValues] = Return res ->
          log (snd result)
          = log (snd once) ++ [EOrigQuery [newText; newValues];
                               ECallback f [VNull; res]]) /\
      (forall newText newValues err,
          fst once = Return (newText, newValues) ->
          orig [newText; newValues] = Throw err ->
          log (snd result)
          = log (snd once) ++ [EOrigQuery [newText; newValues];
                               ECallback f [err]])) /\
  (is_function (arg 1 args) = false ->
   truthy (arg 2 args) = false ->
   exists settled,
     fst result = RPromise settled /\
     forall newText newValues,
       fst once = Return (newText, newValues) ->
       settled = orig [newText; newValues] /\
       log (snd result) = log (snd once) ++ [EOrigQuery [newText; newValues]]).
Proof.
  intros once result. subst once result.
  destruct (addFileCommentToQuery e (arg 0 args) (effective_values args) s)
    as [ann s1] eqn:Hann.
  rewrite (patchedQuery_run _ _ _ _ _ _ Hann). cbn [fst snd].
  split.
  - intros f Hf.
    assert (effective_callback args = VFunction f) as ->.
    { unfold effective_callback.
      destruct Hf as [Hf | [Hn Hf]]; [rewrite Hf | rewrite Hn]; auto. }
    cbn [truthy fst snd]. rewrite deliver_function.
    split; [reflexivity|]. split.
    + intros newText newValues res -> Hres. rewrite Hres.
      cbn [add_event log callback_args]. rewrite <- app_assoc. reflexivity.
    + intros newText newValues err -> Hres. rewrite Hres.
      cbn [add_event log callback_args]. rewrite <- app_assoc. reflexivity.
  - intros Hn Hcb. unfold effective_callback. rewrite Hn, Hcb.
    eexists. split; [reflexivity|].
    intros newText newValues ->. split; reflexivity.
Qed.

Lemma patchedQuery_callback_contract_witness :
  (let result := patchedQuery counting_query app_js_env
                              values_callback_call initial_state in
   fst result = RUndefined /\
   callback_calls (log (snd result)) = [(FnUser 1, [VNull; VNumber 2])]) /\
  (let result := patchedQuery failing_query app_js_env
                              two_callbacks_call initial_state in
   fst result = RUndefined /\
   callback_calls (log (snd result))
   = [(FnUser 1, [VError (OtherError 7)])]) /\
  fst (patchedQuery counting_query app_js_env
         [VString (str "SELECT NOW();")] initial_state)
  = RPromise (Return (VNumber 2)).
Proof.
  split; [|split].
  - destruct (patchedQuery_callback_contract
                counting_query app_js_env values_callback_call initial_state)
      as [Hcb _].
    destruct (Hcb (FnUser 1)) as (Hret & Hok & _).
    { right. split; reflexivity. }
    split; [exact Hret|].
    cbv zeta in Hok.
    rewrite (Hok (VString (str "SELECT NOW() /* file=app.js:7:3 */;"))
                 VUndefined (VNumber 2) eq_refl eq_refl).
    reflexivity.
  - destruct (patchedQuery_callback_contract
                failing_query app_js_env two_callbacks_call initial_state)
      as [Hcb _].
    destruct (Hcb (FnUser 1)) as (Hret & _ & Hfail).
    { left. reflexivity. }
    split; [exact Hret|].
    cbv zeta in Hfail.
    rewrite (Hfail (VString (str "SELECT NOW() /* file=app.js:7:3 */;"))
                   VUndefined (VError (OtherError 7)) eq_refl eq_refl).
    reflexivity.
  - destruct (patchedQuery_callback_contract
                counting_query app_js_env [VString (str "SELECT NOW();")]
                initial_state) as [_ Hpromise].
    destruct (Hpromise eq_refl eq_refl) as (settled & Hret & Hsettled).
    rewrite Hret.
    destruct (Hsettled (VString (str "SELECT NOW() /* file=app.js:7:3 */;"))
                       VUndefined eq_refl) as [-> _].
    reflexivity.
Defined.

(* ===================================================================== *)
(** ** Further properties: the two annotation branches *)
(* ===================================================================== *)

Lemma endsWith_cons_cons c d s p :
  endsWith (c :: d :: s) [p] = endsWith (d :: s) [p].
Proof.
  destruct (endsWith (d :: s) [p]) eqn:E.
  - apply endsWith_cons. exact E.
  - destruct (endsWith (c :: d :: s) [p]) eqn:E'; [|reflexivity].
    apply endsWith_iff in E' as [t Ht].
    assert (endsWith (d :: s) [p] = true) as E''; [|congruence].
    apply endsWith_iff. destruct t as [|x t]; simpl in Ht.
    + discriminate.
    + injection Ht as _ Ht. eauto.
Qed.

Lemma replace_semi_at_end_cons c s :
  replace_semi_at_end (c :: s)
  = if (c =? semicolon) && (match s with [] => true | _ => false end)
    then [] else c :: replace_semi_at_end s.
Proof. reflexivity. Qed.

Lemma replace_semi_at_end_cases (s : jsstring) :
  replace_semi_at_end s
  = if endsWith s [semicolon] then slice_0_m1 s else s.
Proof.
  induction s as [|c s IH]; [reflexivity|].
  rewrite replace_semi_at_end_cons.
  destruct s as [|d s].
  - unfold endsWith. simpl. rewrite N.eqb_sym.
    destruct (c =? semicolon); reflexivity.
  - rewrite andb_false_r, IH, endsWith_cons_cons.
    destruct (endsWith (d :: s) [semicolon]); reflexivity.
Qed.

(** X1.  The replacement [replace(/;?$/, '')] of line 122 drops one final
    [;] and nothing else: a text that does not end in [;] is left as it
    is, and of several final [;] only the last goes. *)
Theorem replace_semi_at_end_strips_one (s : jsstring) :
  (endsWith s [semicolon] = true ->
   s = replace_semi_at_end s ++ [semicolon]) /\
  (endsWith s [semicolon] = false -> replace_semi_at_end s = s).
Proof.
  rewrite replace_semi_at_end_cases. split; intros H; rewrite H.
  - apply endsWith_semicolon_slice, H.
  - reflexivity.
Qed.

Lemma replace_semi_at_end_strips_one_witness :
  str "a;b;;" = replace_semi_at_end (str "a;b;;") ++ [semicolon] /\
  replace_semi_at_end (str "a;b") = str "a;b".
Proof.
  split.
  - exact (proj1 (replace_semi_at_end_strips_one (str "a;b;;")) eq_refl).
  - exact (proj2 (replace_semi_at_end_strips_one (str "a;b")) eq_refl).
Defined.

Lemma annotate_string_unterminated_end pos text :
  endsWith (trim text) [semicolon] = false ->
  endsWith (annotate_string (comment_of pos) text) [semicolon] = false.
Proof.
  intros E. unfold annotate_string. rewrite E.
  rewrite comment_of_shape. unfold endsWith.
  rewrite !rev_app_distr. reflexivity.
Qed.

(** X2.  The string branch keeps the termination of the query as it was:
    the annotated string ends in [;] exactly when the trimmed text did. *)
Theorem annotate_string_keeps_termination
    (pos : option jsstring) (text : jsstring) :
  endsWith (annotate_string (comment_of pos) text) [semicolon]
  = endsWith (trim text) [semicolon].
Proof.
  destruct (endsWith (trim text) [semicolon]) eqn:E.
  - rewrite (annotate_string_terminated _ _ E).
    apply (one_terminator_after_comment (slice_0_m1 (trim text)) pos).
  - apply annotate_string_unterminated_end, E.
Qed.

Lemma trimStart_removes_white_space s :
  exists w, s = w ++ trimStart s /\ forallb is_white_space w = true.
Proof.
  induction s as [|c s (w & Hw & Hall)]; [exists []; auto|].
  simpl. destruct (is_white_space c) eqn:Hc.
  - exists (c :: w). split; [simpl; congruence|].
    simpl. rewrite Hc. exact Hall.
  - exists []. auto.
Qed.

Lemma forallb_rev {A} (f : A -> bool) l :
  forallb f (rev l) = forallb f l.
Proof.
  induction l as [|x l IH]; [reflexivity|].
  simpl. rewrite forallb_app, IH. simpl. rewrite andb_true_r.
  apply andb_comm.
Qed.

Lemma trim_removes_white_space s :
  exists w1 w2,
    s = w1 ++ trim s ++ w2 /\
    forallb is_white_space w1 = true /\
    forallb is_white_space w2 = true.
Proof.
  destruct (trimStart_removes_white_space s) as (w1 & H1 & Hw1).
  destruct (trimStart_removes_white_space (rev (trimStart s)))
    as (w2 & H2 & Hw2).
  exists w1, (rev w2). unfold trim, trimEnd.
  rewrite forallb_rev. repeat split; try assumption.
  rewrite <- rev_app_distr, <- H2, rev_involutive. exact H1.
Qed.

(** X3.  The string branch removes nothing of a query but the white space
    around it: a terminated text is white space, the statement, [;], white
    space, and comes back as the statement, the comment and [;]; a text
    that is not terminated comes back whole, surrounding white space
    included, with the comment after it. *)
Theorem annotate_string_keeps_statement
    (pos : option jsstring) (text : jsstring) :
  (endsWith (trim text) [semicolon] = true ->
   exists w1 sql w2,
     text = w1 ++ sql ++ [semicolon] ++ w2 /\
     forallb is_white_space w1 = true /\
     forallb is_white_space w2 = true /\
     annotate_string (comment_of pos) text
     = sql ++ str " " ++ comment_of pos ++ str ";") /\
  (endsWith (trim text) [semicolon] = false ->
   annotate_string (comment_of pos) text
   = text ++ str " " ++ comment_of pos).
Proof.
  split; intros H.
  - destruct (trim_removes_white_space text) as (w1 & w2 & Ht & H1 & H2).
    exists w1, (slice_0_m1 (trim text)), w2.
    repeat split; try assumption.
    + rewrite (endsWith_semicolon_slice _ H) in Ht at 1.
      rewrite <- app_assoc in Ht. exact Ht.
    + apply annotate_string_terminated, H.
  - unfold annotate_string. rewrite H. reflexivity.
Qed.

Lemma annotate_string_keeps_statement_witness :
  exists w1 sql w2,
    select_1_terminated = w1 ++ sql ++ [semicolon] ++ w2 /\
    forallb is_white_space w1 = true /\
    forallb is_white_space w2 = true /\
    annotate_string (comment_of None) select_1_terminated
    = sql ++ str " " ++ comment_of None ++ str ";".
Proof.
  exact (proj1 (annotate_string_keeps_statement None select_1_terminated)
               eq_refl).
Defined.

(** X4.  On a string the two branches write the same text exactly when the
    trimmed text ends in [;]: the object branch of line 122 always trims
    and always ends its text with [;], the string branch of line 117 does
    neither for a text that is not terminated. *)
Theorem annotate_branches_agree_iff_terminated
    (pos : option jsstring) (text : jsstring) :
  annotate_text_field (comment_of pos) text
  = annotate_string (comment_of pos) text
  <-> endsWith (trim text) [semicolon] = true.
Proof.
  split.
  - intros Heq.
    destruct (endsWith (trim text) [semicolon]) eqn:E; [reflexivity|].
    apply (annotate_string_unterminated_end pos) in E.
    rewrite <- Heq in E.
    destruct (one_terminator_after_comment
                (replace_semi_at_end (trim text)) pos) as [Hend _].
    unfold annotate_text_field in E. congruence.
  - intros H. unfold annotate_text_field.
    rewrite replace_semi_at_end_cases, H.
    symmetry. apply annotate_string_terminated, H.
Qed.

(* ===================================================================== *)
(** ** Further properties: frames and positions *)
(* ===================================================================== *)

Lemma first_caller_app_skipped inner rest :
  Forall skipped inner -> first_caller (inner ++ rest) = first_caller rest.
Proof.
  induction 1 as [|frame inner Hs _ IH]; [reflexivity|].
  unfold skipped in Hs. cbn [first_caller app].
  destruct (getFileName frame) as [f|]; [rewrite Hs|]; exact IH.
Qed.

(** X5.  Frames that the loop passes over do not change what it finds,
    however many lie before the caller: the result depends on the stack
    from its first qualifying frame on, and not on anything after that
    frame either. *)
Theorem first_caller_ignores_skipped_frames
    (inner : list CallSite) (frame : CallSite) (outer outer' : list CallSite) :
  Forall skipped inner ->
  first_caller (inner ++ outer) = first_caller outer /\
  (is_caller (getFileName frame) = true ->
   first_caller (inner ++ frame :: outer) = first_caller [frame] /\
   first_caller (inner ++ frame :: outer)
   = first_caller (inner ++ frame :: outer')).
Proof.
  intros Hin. split; [apply first_caller_app_skipped, Hin|].
  intros Hq. rewrite !(first_caller_app_skipped _ _ Hin).
  cbn [first_caller]. destruct (getFileName frame) as [f|].
  - rewrite Hq. split; reflexivity.
  - discriminate Hq.
Qed.

Lemma first_caller_ignores_skipped_frames_witness :
  first_caller app_js_stack
  = first_caller [call_site "/srv/app/app.js" 7 3].
Proof.
  destruct (first_caller_ignores_skipped_frames
              [ call_site "/srv/app/pg-filecommenter-sourcemap.js" 106 17;
                call_site "/srv/app/pg-filecommenter-sourcemap.js" 146 21 ]
              (call_site "/srv/app/app.js" 7 3)
              [ {| getFileName := Some (str "node:internal/modules/cjs/loader");
                   getLineNumber := Some 1554%Z;
                   getColumnNumber := Some 14%Z |} ]
              []) as [_ H].
  - repeat constructor.
  - exact (proj1 (H eq_refl)).
Defined.

Lemma frame_usable_inv fr :
  frame_usable (Some fr) = true ->
  fileName fr <> [] /\
  exists ln col,
    line fr = Some ln /\ column fr = Some col /\ ln <> 0%Z /\ col <> 0%Z.
Proof.
  unfold frame_usable, falsy_number.
  rewrite negb_true_iff, !orb_false_iff. intros [[Hf Hl] Hc].
  split; [intros E; rewrite E in Hf; discriminate|].
  destruct (line fr) as [ln|]; [|discriminate].
  destruct (column fr) as [col|]; [|discriminate].
  exists ln, col. repeat split.
  - intros ->. discriminate.
  - intros ->. discriminate.
Qed.

Lemma resolveOriginalPosition_unusable e frame s :
  frame_usable frame = false ->
  resolveOriginalPosition e frame s = (Return None, s).
Proof.
  intros H. destruct frame as [fr|]; [|reflexivity].
  unfold resolveOriginalPosition. unfold frame_usable in H.
  apply negb_false_iff in H. rewrite H. reflexivity.
Qed.

(** With a consumer for the file in the cache, the answer of the consumer
    decides the outcome. *)
Lemma resolveOriginalPosition_cached e s fr ln col c :
  fileName fr <> [] ->
  line fr = Some ln -> column fr = Some col ->
  ln <> 0%Z -> col <> 0%Z ->
  sourceMapCache s !! fileName fr = Some (Some c) ->
  resolveOriginalPosition e (Some fr) s
  = match originalPositionFor c ln col with
    | Return o =>
        (Return
           (Some match o, named_source o with
                 | Some p, Some src => original_position_string p src
                 | _, _ => compiled_position (fileName fr) ln col
                 end), s)
    | Throw err => (Throw err, s)
    end.
Proof.
  intros Hf Hl Hc Hln Hcol Hcache.
  rewrite (resolveOriginalPosition_guard_passed e fr ln col) by assumption.
  cbv zeta. unfold bind at 1.
  rewrite (loadSourceMapForFile_hit _ _ _ _ Hcache).
  unfold bind, lift, named_source.
  destruct (originalPositionFor c ln col) as [[p|]|err]; try reflexivity.
  destruct (op_source p) as [[|x src]|]; reflexivity.
Qed.

(** X6.  [resolveOriginalPosition] answers [null] exactly for a frame that
    is missing or has an empty file name or a line or column that is [null]
    or 0, and then touches neither the cache nor the file system; for
    every other frame it answers a position or throws, never [null]. *)
Theorem resolveOriginalPosition_null_iff_unusable
    (e : env) (frame : option Frame) (s : state) :
  (frame_usable frame = false ->
   resolveOriginalPosition e frame s = (Return None, s)) /\
  (fst (resolveOriginalPosition e frame s) = Return None ->
   frame_usable frame = false).
Proof.
  split; [apply resolveOriginalPosition_unusable|].
  destruct (frame_usable frame) eqn:Hu; [|reflexivity].
  destruct frame as [fr|]; [|discriminate Hu].
  destruct (frame_usable_inv fr Hu) as (Hf & ln & col & Hl & Hc & Hln & Hcol).
  rewrite (resolveOriginalPosition_guard_passed e fr ln col) by assumption.
  cbv zeta. unfold bind at 1.
  destruct (loadSourceMapForFile e (fileName fr) s) as [[[c|]|x] s1];
    try discriminate.
  unfold bind, lift, ret.
  destruct (originalPositionFor c ln col) as [[p|]|x]; try discriminate.
  destruct (op_source p) as [src|]; [|discriminate].
  destruct (negb (is_empty src)); discriminate.
Qed.

(** X7.  A translation miss falls back: with a consumer cached for the file
    of a usable frame, [resolveOriginalPosition] returns the original
    position when the consumer names a non-empty source, and the compiled
    position [<basename>:<line>:<column>] when the consumer answers [null],
    a [null] source or an empty one; the state is untouched either way. *)
Theorem resolveOriginalPosition_translation
    (e : env) (s : state) (fr : Frame) (ln col : Z) (c : consumer)
    (o : option original_position) :
  frame_usable (Some fr) = true ->
  line fr = Some ln -> column fr = Some col ->
  sourceMapCache s !! fileName fr = Some (Some c) ->
  originalPositionFor c ln col = Return o ->
  resolveOriginalPosition e (Some fr) s
  = (Return
       (Some match o, named_source o with
             | Some p, Some src =>
                 src ++ colon ++ show (op_line p) ++ colon ++ show (op_column p)
             | _, _ =>
                 basename (fileName fr) ++ colon ++ number_to_string ln
                                        ++ colon ++ number_to_string col
             end), s).
Proof.
  intros Hu Hl Hc Hcache Ho.
  destruct (frame_usable_inv fr Hu) as (Hf & ln' & col' & Hl' & Hc' & Hln & Hcol).
  assert (ln' = ln) as -> by congruence.
  assert (col' = col) as -> by congruence.
  rewrite (resolveOriginalPosition_cached e s fr ln col c) by assumption.
  rewrite Ho. reflexivity.
Qed.

Lemma resolveOriginalPosition_translation_witness :
  let s := with_cache initial_state (fileName app_js_frame)
                      (Some silent_consumer) in
  resolveOriginalPosition app_js_env (Some app_js_frame) s
  = (Return (Some (str "app.js:7:3")), s).
Proof.
  intros s.
  apply (resolveOriginalPosition_translation app_js_env s app_js_frame 7 3
           silent_consumer
           (Some {| op_source := None; op_line := None; op_column := None |})).
  - reflexivity.
  - reflexivity.
  - reflexivity.
  - apply lookup_insert_eq.
  - reflexivity.
Defined.

(** X8.  Nothing catches a consumer that throws: when the consumer cached
    for the caller's file throws on the caller's position, the error comes
    out of [addFileCommentToQuery] as it is, whatever the query, and the
    state is left as it was. *)
Theorem addFileCommentToQuery_consumer_throws
    (e : env) (s : state) (stack : list CallSite) (fr : Frame) (ln col : Z)
    (c : consumer) (err : value) (text values : value) :
  capture e = Return stack ->
  first_caller stack = Some fr ->
  line fr = Some ln -> column fr = Some col ->
  ln <> 0%Z -> col <> 0%Z ->
  sourceMapCache s !! fileName fr = Some (Some c) ->
  originalPositionFor c ln col = Throw err ->
  addFileCommentToQuery e text values s = (Throw err, s).
Proof.
  intros Hcap Hfr Hl Hc Hln Hcol Hcache Hthrow.
  unfold addFileCommentToQuery, bind.
  rewrite (getCallerFrame_captured _ _ _ Hcap), Hfr.
  rewrite (resolveOriginalPosition_cached e s fr ln col c); try assumption.
  - rewrite Hthrow. reflexivity.
  - exact (first_caller_names_file _ _ Hfr).
Qed.

Lemma addFileCommentToQuery_consumer_throws_witness :
  let s := with_cache initial_state (fileName app_js_frame)
                      (Some throwing_consumer) in
  addFileCommentToQuery app_js_env (VString (str "SELECT 1")) VUndefined s
  = (Throw (VError (OtherError 3)), s).
Proof.
  intros s.
  apply (addFileCommentToQuery_consumer_throws app_js_env s app_js_stack
           app_js_frame 7 3 throwing_consumer).
  - reflexivity.
  - reflexivity.
  - reflexivity.
  - reflexivity.
  - discriminate.
  - discriminate.
  - apply lookup_insert_eq.
  - reflexivity.
Defined.

(* ===================================================================== *)
(** ** Further properties: the cache and the file system *)
(* ===================================================================== *)

(** X9.  A first load returns a consumer exactly when the map file exists,
    can be read and can be parsed, and the consumer is the parsed one.
    What it asks of the file system concerns [path + '.map'] alone, at
    most once each for the existence test, the read and the parse of what
    was read; when the file does not exist it is neither read nor
    parsed. *)
Theorem loadSourceMapForFile_first_load
    (e : env) (p : jsstring) (s : state) :
  sourceMapCache s !! p = None ->
  let once := loadSourceMapForFile e p s in
  (forall c,
      fst once = Return (Some c) <->
      existsSync e (map_path p) = true /\
      exists rawMap,
        readFileSync e (map_path p) = Return rawMap /\
        newSourceMapConsumer e rawMap = Return c) /\
  exists evs,
    log (snd once) = log s ++ evs /\
    Forall (map_event e p) evs /\
    (length evs <= 3)%nat /\
    (existsSync e (map_path p) = false -> evs = [EExists (map_path p)]).
Proof.
  intros Hmiss once. subst once.
  unfold loadSourceMapForFile, map_event, map_path. unfold_M.
  rewrite Hmiss. simpl.
  destruct (existsSync e (p ++ str ".map")) eqn:Hex; simpl.
  - destruct (readFileSync e (p ++ str ".map")) as [raw|err] eqn:Hrd; simpl.
    + destruct (newSourceMapConsumer e raw) as [c0|err] eqn:Hp; simpl.
      * split.
        { intros c. split.
          - intros [= <-]. split; [reflexivity|]. exists raw. auto.
          - intros [_ (r & [= <-] & Hc)]. congruence. }
        exists [EExists (p ++ str ".map"); ERead (p ++ str ".map");
                EParse raw].
        rewrite <- !app_assoc. repeat split; [|simpl; lia|discriminate].
        constructor; [left; reflexivity|].
        constructor; [right; left; reflexivity|].
        constructor; [right; right; eauto | constructor].
      * split.
        { intros c. split; [discriminate|].
          intros [_ (r & [= <-] & Hc)]. congruence. }
        exists [EExists (p ++ str ".map"); ERead (p ++ str ".map");
                EParse raw].
        rewrite <- !app_assoc. repeat split; [|simpl; lia|discriminate].
        constructor; [left; reflexivity|].
        constructor; [right; left; reflexivity|].
        constructor; [right; right; eauto | constructor].
    + split.
      { intros c. split; [discriminate|].
        intros [_ (r & Hr & _)]. discriminate Hr. }
      exists [EExists (p ++ str ".map"); ERead (p ++ str ".map")].
      rewrite <- !app_assoc. repeat split; [|simpl; lia|discriminate].
      constructor; [left; reflexivity|].
      constructor; [right; left; reflexivity | constructor].
  - split.
    { intros c. split; [discriminate|]. intros [H _]. discriminate H. }
    exists [EExists (p ++ str ".map")].
    repeat split; [|simpl; lia].
    constructor; [left; reflexivity | constructor].
Qed.

Lemma loadSourceMapForFile_first_load_witness :
  fst (loadSourceMapForFile mapped_env (str "/srv/app/app.js") initial_state)
  = Return (Some app_ts_consumer).
Proof.
  destruct (loadSourceMapForFile_first_load
              mapped_env (str "/srv/app/app.js") initial_state eq_refl)
    as [H _].
  apply H. split; [reflexivity|]. exists (str "{...}"). split; reflexivity.
Defined.

(** X10.  A load writes one thing besides the log: the cache entry of its
    own path, and only when there was none.  What it returns is what the
    cache then holds for the path; an entry that was there is returned and
    kept; every other entry, the object store and
    [Error.prepareStackTrace] are as before. *)
Theorem loadSourceMapForFile_effect (e : env) (p : jsstring) (s : state) :
  let once := loadSourceMapForFile e p s in
  (exists entry,
      fst once = Return entry /\
      sourceMapCache (snd once) !! p = Some entry) /\
  (forall entry,
      sourceMapCache s !! p = Some entry ->
      once = (Return entry, s)) /\
  (forall q, q <> p ->
      sourceMapCache (snd once) !! q = sourceMapCache s !! q) /\
  heap (snd once) = heap s /\
  prepareStackTrace (snd once) = prepareStackTrace s.
Proof.
  intros once. subst once.
  destruct (sourceMapCache s !! p) as [x|] eqn:Hp.
  - rewrite (loadSourceMapForFile_hit _ _ _ _ Hp). cbn [fst snd].
    split; [eauto|]. split; [intros entry [= <-]; reflexivity|].
    repeat split.
  - destruct (loadSourceMapForFile_miss e p s Hp)
      as (x & s1 & -> & Hc & Hpst & Hheap & _).
    cbn [fst snd]. split.
    { exists x. split; [reflexivity|]. rewrite Hc. apply lookup_insert_eq. }
    split; [discriminate|].
    split; [intros q Hq; rewrite Hc; apply lookup_insert_ne; congruence|].
    split; assumption.
Qed.

(* ===================================================================== *)
(** ** Further properties: the annotation pipeline *)
(* ===================================================================== *)

Lemma resolveOriginalPosition_after_load e fr ln col s :
  fileName fr <> [] ->
  line fr = Some ln -> column fr = Some col ->
  ln <> 0%Z -> col <> 0%Z ->
  resolveOriginalPosition e (Some fr) s
  = match loadSourceMapForFile e (fileName fr) s with
    | (Return entry, s1) => (position_for (fileName fr) ln col entry, s1)
    | (Throw err, s1) => (Throw err, s1)
    end.
Proof.
  intros Hf Hl Hc Hln Hcol.
  rewrite (resolveOriginalPosition_guard_passed e fr ln col) by assumption.
  cbv zeta. unfold bind at 1.
  destruct (loadSourceMapForFile e (fileName fr) s) as [[[c|]|x] s1];
    try reflexivity.
  unfold bind, lift, ret, position_for, named_source.
  destruct (originalPositionFor c ln col) as [[p|]|x]; try reflexivity.
  destruct (op_source p) as [[|y src]|]; reflexivity.
Qed.

(** What [resolveOriginalPosition] leaves behind: the cache holds an entry
    for the file of a usable frame, nothing else of the cache has moved,
    and asking again in any state with that cache gives the same answer
    and changes nothing. *)
Lemma resolveOriginalPosition_stable e frame s r s1 :
  resolveOriginalPosition e frame s = (r, s1) ->
  heap s1 = heap s /\
  prepareStackTrace s1 = prepareStackTrace s /\
  forall s2,
    sourceMapCache s2 = sourceMapCache s1 ->
    resolveOriginalPosition e frame s2 = (r, s2).
Proof.
  intros Hrun.
  destruct (frame_usable frame) eqn:Hu.
  2:{ rewrite (resolveOriginalPosition_unusable _ _ _ Hu) in Hrun.
      injection Hrun as <- <-. repeat split.
      intros s2 _. apply resolveOriginalPosition_unusable, Hu. }
  destruct frame as [fr|]; [|discriminate Hu].
  destruct (frame_usable_inv fr Hu) as (Hf & ln & col & Hl & Hc & Hln & Hcol).
  rewrite (resolveOriginalPosition_after_load e fr ln col) in Hrun
    by assumption.
  assert (exists entry,
             loadSourceMapForFile e (fileName fr) s = (Return entry, s1) /\
             sourceMapCache s1 !! fileName fr = Some entry /\
             heap s1 = heap s /\
             prepareStackTrace s1 = prepareStackTrace s) as Hload.
  { destruct (sourceMapCache s !! fileName fr) as [x|] eqn:Hp.
    - rewrite (loadSourceMapForFile_hit _ _ _ _ Hp) in Hrun |- *.
      injection Hrun as _ <-. exists x. auto.
    - destruct (loadSourceMapForFile_miss e _ s Hp)
        as (x & s' & Hl' & Hc' & Hpst & Hheap & _).
      rewrite Hl' in Hrun |- *. injection Hrun as _ <-.
      exists x. repeat split; try assumption.
      rewrite Hc'. apply lookup_insert_eq. }
  destruct Hload as (entry & Hload & Hentry & Hheap & Hpst).
  rewrite Hload in Hrun. injection Hrun as <-.
  repeat split; try assumption.
  intros s2 Hs2.
  rewrite (resolveOriginalPosition_after_load e fr ln col) by assumption.
  rewrite (loadSourceMapForFile_hit e (fileName fr) s2 entry)
    by (rewrite Hs2; exact Hentry).
  reflexivity.
Qed.

(** A second [annotate] with the same comment is a first one over again,
    and [annotate] keeps its hands off the cache, the log and
    [Error.prepareStackTrace]. *)
Lemma annotate_again comment text values s r s1 :
  annotate comment text values s = (r, s1) ->
  annotate comment text values s1 = (r, s1) /\
  sourceMapCache s1 = sourceMapCache s /\
  prepareStackTrace s1 = prepareStackTrace s /\
  log s1 = log s.
Proof.
  intros Hrun.
  destruct text;
    try (injection Hrun as <- <-; repeat split; fail).
  destruct (annotate_object_cases _ _ _ _ _ _ Hrun)
    as [[-> Hr] | (t & Ht & Hne & Hi)].
  - repeat split. exact Hrun.
  - rewrite (annotate_object_fresh _ _ _ _ _ Ht Hne Hi) in Hrun.
    injection Hrun as <- <-. repeat split.
    apply (annotate_object_present _ _ _ _ (annotate_text_field comment t)).
    + cbn [heap]. rewrite lookup_object_insert. cbn [props].
      apply lookup_insert_eq.
    + apply annotate_text_field_not_empty.
    + apply includes_appended.
Qed.

(** X11.  Issuing the same call again from the same call site is a no-op
    for the annotation: run in the state the first run left, with the same
    environment, [addFileCommentToQuery] gives the same result and leaves
    that state exactly as it is: no file is looked for, read or parsed
    again, and a query object annotated by the first run is not annotated
    twice. *)
Theorem addFileCommentToQuery_idempotent
    (e : env) (text values : value) (s : state) :
  let once := addFileCommentToQuery e text values s in
  addFileCommentToQuery e text values (snd once) = once.
Proof.
  intros once. subst once. unfold addFileCommentToQuery, bind.
  destruct (capture e) as [stack|x] eqn:Hcap.
  2:{ unfold getCallerFrame. unfold_M. rewrite Hcap. reflexivity. }
  rewrite (getCallerFrame_captured _ s _ Hcap).
  destruct (resolveOriginalPosition e (first_caller stack) s)
    as [[pos|x] s1] eqn:Hres;
    destruct (resolveOriginalPosition_stable _ _ _ _ _ Hres)
      as (_ & _ & Hagain).
  - destruct (annotate (comment_of pos) text values s1) as [r s2] eqn:Hann.
    destruct (annotate_again _ _ _ _ _ _ Hann) as (Hann2 & Hcache & _ & _).
    cbn [snd]. rewrite (getCallerFrame_captured _ s2 _ Hcap).
    rewrite (Hagain s2 Hcache). exact Hann2.
  - cbn [snd]. rewrite (getCallerFrame_captured _ s1 _ Hcap).
    rewrite (Hagain s1 eq_refl). reflexivity.
Qed.

(** X12.  When no frame is usable (no frame qualifies, or the caller has no
    line or column) the query is annotated with [file=unknown] and nothing
    else happens: no cache entry is made and the file system is not
    touched. *)
Theorem addFileCommentToQuery_unknown
    (e : env) (stack : list CallSite) (text values : value) (s : state) :
  capture e = Return stack ->
  frame_usable (first_caller stack) = false ->
  addFileCommentToQuery e text values s
  = annotate (str "/* file=unknown */") text values s /\
  (forall q,
      text = VString q ->
      addFileCommentToQuery e text values s
      = (Return (VString (annotate_string (str "/* file=unknown */") q),
                 values), s)).
Proof.
  intros Hcap Hu.
  assert (addFileCommentToQuery e text values s
          = annotate (str "/* file=unknown */") text values s) as H.
  { unfold addFileCommentToQuery, bind.
    rewrite (getCallerFrame_captured _ _ _ Hcap).
    rewrite (resolveOriginalPosition_unusable _ _ _ Hu). reflexivity. }
  split; [exact H|]. intros q ->. rewrite H. reflexivity.
Qed.

Lemma addFileCommentToQuery_unknown_witness :
  addFileCommentToQuery unknown_env (VString (str "SELECT 1")) VUndefined
                        initial_state
  = (Return (VString (str "SELECT 1 /* file=unknown */"), VUndefined),
     initial_state).
Proof.
  exact (proj2 (addFileCommentToQuery_unknown unknown_env [] 
                  (VString (str "SELECT 1")) VUndefined initial_state
                  eq_refl eq_refl) (str "SELECT 1") eq_refl).
Defined.

(** X13.  With a warm cache the annotation does no input or output: when
    the cache already holds an entry for the file of the caller, the log
    and the cache are after [addFileCommentToQuery] what they were
    before, whatever the query and whether the annotation succeeds or
    throws. *)
Theorem addFileCommentToQuery_warm_cache
    (e : env) (stack : list CallSite) (fr : Frame) (entry : option consumer)
    (text values : value) (s : state) :
  capture e = Return stack ->
  first_caller stack = Some fr ->
  sourceMapCache s !! fileName fr = Some entry ->
  let after := snd (addFileCommentToQuery e text values s) in
  log after = log s /\
  sourceMapCache after = sourceMapCache s /\
  prepareStackTrace after = prepareStackTrace s.
Proof.
  intros Hcap Hfr Hentry after. subst after.
  unfold addFileCommentToQuery, bind.
  rewrite (getCallerFrame_captured _ _ _ Hcap), Hfr.
  assert (exists r, resolveOriginalPosition e (Some fr) s = (r, s))
    as [r Hres].
  { destruct (frame_usable (Some fr)) eqn:Hu.
    - destruct (frame_usable_inv fr Hu)
        as (Hf & ln & col & Hl & Hc & Hln & Hcol).
      rewrite (resolveOriginalPosition_after_load e fr ln col) by assumption.
      rewrite (loadSourceMapForFile_hit _ _ _ _ Hentry). eauto.
    - rewrite (resolveOriginalPosition_unusable _ _ _ Hu). eauto. }
  rewrite Hres. destruct r as [pos|x]; [|repeat split].
  destruct (annotate (comment_of pos) text values s) as [r s1] eqn:Hann.
  destruct (annotate_again _ _ _ _ _ _ Hann) as (_ & Hc & Hp & Hl).
  cbn [snd]. auto.
Qed.

Lemma addFileCommentToQuery_warm_cache_witness :
  let s := with_cache initial_state (fileName app_js_frame)
                      (Some app_ts_consumer) in
  log (snd (addFileCommentToQuery broken_map_env
              (VString (str "SELECT 1")) VUndefined s)) = [].
Proof.
  intros s.
  destruct (addFileCommentToQuery_warm_cache broken_map_env app_js_stack
              app_js_frame (Some app_ts_consumer)
              (VString (str "SELECT 1")) VUndefined s)
    as [H _].
  - reflexivity.
  - reflexivity.
  - apply lookup_insert_eq.
  - exact H.
Defined.

Lemma getCallerFrame_heap e s : heap (snd (getCallerFrame e s)) = heap s.
Proof.
  unfold getCallerFrame. unfold_M. simpl. destruct (capture e); reflexivity.
Qed.

(** X14.  A query object is annotated in place and handed on by reference:
    when [addFileCommentToQuery] succeeds on an object whose [text] is a
    non-empty string, it returns that very object with the values of the
    call, and the [text] found in the store afterwards contains the
    comment of some position: it is the old text if that already held the
    comment, and otherwise the old text trimmed, without its final [;],
    followed by the comment and [;].  No other property of the object and
    no other object has changed. *)
Theorem addFileCommentToQuery_annotates_in_place
    (e : env) (l : loc) (values : value) (s : state) (t : jsstring)
    (res : value * value) (s' : state) :
  props (lookup_object (heap s) l) !! text_key = Some (VString t) ->
  t <> [] ->
  addFileCommentToQuery e (VObject l) values s = (Return res, s') ->
  res = (VObject l, values) /\
  (exists pos t',
      props (lookup_object (heap s') l) !! text_key = Some (VString t') /\
      includes t' (comment_of pos) = true /\
      (t' = t \/
       includes t (comment_of pos) = false /\
       t' = annotate_text_field (comment_of pos) t)) /\
  (forall k, k <> text_key ->
      props (lookup_object (heap s') l) !! k
      = props (lookup_object (heap s) l) !! k) /\
  (forall l', l' <> l -> heap s' !! l' = heap s !! l').
Proof.
  intros Ht Hne Hrun. unfold addFileCommentToQuery, bind in Hrun.
  pose proof (getCallerFrame_heap e s) as Hh0.
  destruct (getCallerFrame e s) as [[frame|x] s0]; [|discriminate Hrun].
  cbn [snd] in Hh0.
  destruct (resolveOriginalPosition e frame s0) as [[pos|x] s1] eqn:Hres;
    [|discriminate Hrun].
  destruct (resolveOriginalPosition_stable _ _ _ _ _ Hres) as (Hh1 & _ & _).
  assert (heap s1 = heap s) as Hh by congruence.
  rewrite <- Hh in Ht |- *.
  destruct (includes t (comment_of pos)) eqn:Hi.
  - rewrite (annotate_object_present _ _ _ _ _ Ht Hne Hi) in Hrun.
    injection Hrun as <- <-. split; [reflexivity|]. split; [|split; auto].
    exists pos, t. auto.
  - rewrite (annotate_object_fresh _ _ _ _ _ Ht Hne Hi) in Hrun.
    injection Hrun as <- <-. cbn [heap].
    rewrite lookup_object_insert. cbn [props].
    split; [reflexivity|]. split; [|split].
    + exists pos, (annotate_text_field (comment_of pos) t).
      split; [apply lookup_insert_eq|].
      split; [apply includes_appended | right; auto].
    + intros k Hk. apply lookup_insert_ne. congruence.
    + intros l' Hl'. apply lookup_insert_ne. congruence.
Qed.

Lemma addFileCommentToQuery_annotates_in_place_witness :
  let once := addFileCommentToQuery app_js_env (VObject 1) VUndefined
                                    (with_object select_1_config) in
  fst once = Return (VObject 1, VUndefined) /\
  props (lookup_object (heap (snd once)) 1) !! values_key
  = Some (VObject 2).
Proof.
  intros once.
  destruct (addFileCommentToQuery_annotates_in_place
              app_js_env 1 VUndefined (with_object select_1_config)
              (str "SELECT 1") (VObject 1, VUndefined) (snd once))
    as (_ & _ & Hk & _).
  - reflexivity.
  - discriminate.
  - reflexivity.
  - split; [reflexivity|]. rewrite (Hk values_key); [reflexivity|discriminate].
Defined.

(* ===================================================================== *)
(** ** Further properties: the wrapper *)
(* ===================================================================== *)

(** X15.  A failing annotation is reported the way a failing query is: the
    error goes to the callback, as its only argument, when there is one,
    and otherwise rejects the promise that is returned; the wrapped query
    is not called. *)
Theorem patchedQuery_annotation_failure
    (orig : list value -> outcome value) (e : env)
    (args : list value) (s : state) (err : value) :
  fst (addFileCommentToQuery e (arg 0 args) (effective_values args) s)
  = Throw err ->
  let result := patchedQuery orig e args s in
  orig_calls (log (snd result)) = orig_calls (log s) /\
  (forall f,
      effective_callback args = VFunction f ->
      fst result = RUndefined /\
      callback_calls (log (snd result))
      = callback_calls (log s) ++ [(f, [err])]) /\
  (truthy (effective_callback args) = false ->
   fst result = RPromise (Throw err) /\
   callback_calls (log (snd result)) = callback_calls (log s)).
Proof.
  intros Hfail result. subst result.
  destruct (addFileCommentToQuery e (arg 0 args) (effective_values args) s)
    as [ann s1] eqn:Hann.
  cbn [fst] in Hfail. subst ann.
  pose proof (addFileCommentToQuery_quiet
                e (arg 0 args) (effective_values args) s) as [[Ho Hc] _].
  rewrite Hann in Ho, Hc. cbn [snd] in Ho, Hc.
  rewrite (patchedQuery_run _ _ _ _ _ _ Hann). split; [|split].
  - destruct (truthy (effective_callback args)); cbn [snd]; [|exact Ho].
    destruct (effective_callback args); cbn [deliver emit modify snd log];
      rewrite orig_calls_app, Ho; simpl; apply app_nil_r.
  - intros f ->. cbn [truthy fst snd]. rewrite deliver_function.
    split; [reflexivity|]. cbn [add_event log callback_args].
    rewrite callback_calls_app, Hc. reflexivity.
  - intros ->. split; [reflexivity | exact Hc].
Qed.

Lemma patchedQuery_annotation_failure_witness :
  let result := patchedQuery counting_query app_js_env
                  [VNull; VFunction (FnUser 1)] initial_state in
  fst result = RUndefined /\
  callback_calls (log (snd result))
  = [(FnUser 1, [VError TypeError])] /\
  orig_calls (log (snd result)) = [].
Proof.
  intros result.
  destruct (patchedQuery_annotation_failure counting_query app_js_env
              [VNull; VFunction (FnUser 1)] initial_state (VError TypeError)
              eq_refl) as (Ho & Hcb & _).
  destruct (Hcb (FnUser 1) eq_refl) as [Hret Hcalls].
  split; [exact Hret|]. split; [exact Hcalls | exact Ho].
Defined.

(** X16.  A callback argument that is truthy and no function swallows the
    outcome: the wrapper returns [undefined] as for a real callback, the
    query is forwarded all the same when the annotation succeeds, but no
    callback is called and the caller gets neither result nor error; the
    attempt to call the argument ends in a [TypeError] that nobody
    handles. *)
Theorem patchedQuery_callback_not_callable
    (orig : list value -> outcome value) (e : env)
    (args : list value) (s : state) :
  truthy (effective_callback args) = true ->
  is_function (effective_callback args) = false ->
  let once := addFileCommentToQuery e (arg 0 args) (effective_values args) s in
  let result := patchedQuery orig e args s in
  fst result = RUndefined /\
  callback_calls (log (snd result)) = callback_calls (log s) /\
  (exists evs,
      log (snd result) = evs ++ [EUnhandledRejection (VError TypeError)]) /\
  (forall newText newValues,
      fst once = Return (newText, newValues) ->
      orig_calls (log (snd result))
      = orig_calls (log s) ++ [[newText; newValues]]).
Proof.
  intros Htruthy Hfun once result. subst once result.
  destruct (addFileCommentToQuery e (arg 0 args) (effective_values args) s)
    as [ann s1] eqn:Hann.
  pose proof (addFileCommentToQuery_quiet
                e (arg 0 args) (effective_values args) s) as [[Ho Hc] _].
  rewrite Hann in Ho, Hc. cbn [fst snd] in *.
  rewrite (patchedQuery_run _ _ _ _ _ _ Hann), Htruthy. cbn [fst snd].
  assert (forall promise s2,
             snd (deliver (effective_callback args) promise s2)
             = add_event s2 (EUnhandledRejection (VError TypeError))) as Hd.
  { intros promise s2.
    destruct (effective_callback args); try reflexivity; discriminate Hfun. }
  rewrite Hd. cbn [add_event log]. split; [reflexivity|]. split; [|split].
  - rewrite callback_calls_app. simpl. rewrite app_nil_r.
    destruct ann as [[newText newValues]|x]; cbn [add_event log];
      rewrite ?callback_calls_app, Hc; simpl; rewrite ?app_nil_r;
      reflexivity.
  - eexists. reflexivity.
  - intros newText newValues ->. cbn [add_event log].
    rewrite !orig_calls_app, Ho. simpl. rewrite app_nil_r. reflexivity.
Qed.

Lemma patchedQuery_callback_not_callable_witness :
  let result := patchedQuery counting_query app_js_env
                             junk_callback_call initial_state in
  fst result = RUndefined /\
  callback_calls (log (snd result)) = [] /\
  orig_calls (log (snd result))
  = [[VString (str "SELECT NOW() /* file=app.js:7:3 */;"); VUndefined]].
Proof.
  intros result.
  destruct (patchedQuery_callback_not_callable counting_query app_js_env
              junk_callback_call initial_state eq_refl eq_refl)
    as (Hret & Hcb & _ & Hfwd).
  split; [exact Hret|]. split; [exact Hcb|].
  exact (Hfwd (VString (str "SELECT NOW() /* file=app.js:7:3 */;"))
              VUndefined eq_refl).
Defined.

(* ===================================================================== *)
(** ** Further properties: what the comment is made of *)
(* ===================================================================== *)

Lemma digits_of_uint d :
  forallb is_digit_or_minus (str (NilEmpty.string_of_uint d)) = true.
Proof. induction d; simpl; auto. Qed.

Lemma number_to_string_digits z :
  forallb is_digit_or_minus (number_to_string z) = true.
Proof.
  unfold number_to_string, NilZero.string_of_int, NilZero.string_of_uint.
  destruct (Z.to_int z) as [d|d]; destruct d; try reflexivity;
    try exact (digits_of_uint _); simpl; apply digits_of_uint.
Qed.

Lemma digits_no_slash s :
  forallb is_digit_or_minus s = true -> ~ In slash s.
Proof.
  intros H Hin. rewrite forallb_forall in H.
  specialize (H _ Hin). discriminate H.
Qed.

Lemma compiled_position_no_slash f ln col :
  ~ In slash (compiled_position f ln col).
Proof.
  unfold compiled_position. rewrite !in_app_iff.
  intros [H | [H | [H | [H | H]]]].
  - exact (proj1 (basename_spec f) H).
  - destruct H as [H | []]. discriminate H.
  - exact (digits_no_slash _ (number_to_string_digits ln) H).
  - destruct H as [H | []]. discriminate H.
  - exact (digits_no_slash _ (number_to_string_digits col) H).
Qed.

Lemma startsWith_slash_false c s :
  c <> slash -> startsWith (c :: s) [slash] = false.
Proof.
  intros H. cbn [startsWith].
  destruct (N.eqb_spec slash c); [congruence | reflexivity].
Qed.

Lemma no_slash_no_closer s :
  ~ In slash s -> count_occurrences comment_closer s = 0%nat.
Proof.
  induction s as [|c s IH]; intros Hs; [reflexivity|].
  change (count_occurrences comment_closer (c :: s))
    with ((if startsWith (c :: s) comment_closer then 1 else 0)
          + count_occurrences comment_closer s)%nat.
  rewrite IH by (intros H; apply Hs; right; exact H).
  change (startsWith (c :: s) comment_closer)
    with ((42 =? c) && startsWith s [slash]).
  destruct s as [|d s]; [rewrite andb_false_r; reflexivity|].
  rewrite startsWith_slash_false, andb_false_r; [reflexivity|].
  intros ->. apply Hs. right. left. reflexivity.
Qed.

(** X17.  The compiled position holds no path separator, whatever the
    directory of the file, and so the comment built from it is closed
    once, by its own last two code units: a file name cannot end the SQL
    comment early. *)
Theorem compiled_position_comment_closed_once
    (fileName : jsstring) (ln col : Z) :
  let pos := compiled_position fileName ln col in
  ~ In slash pos /\
  count_occurrences comment_closer (comment_of (Some pos)) = 1%nat /\
  endsWith (comment_of (Some pos)) comment_closer = true.
Proof.
  intros pos.
  pose proof (compiled_position_no_slash fileName ln col) as Hs.
  fold pos in Hs. split; [exact Hs|].
  assert (comment_body (Some pos) = pos) as Hbody.
  { unfold pos, compiled_position.
    destruct (basename fileName); reflexivity. }
  rewrite comment_of_shape, Hbody. split.
  - rewrite (count_occurrences_app_left comment_closer annotation_opener)
      by reflexivity.
    rewrite (count_occurrences_app_right comment_closer pos) by reflexivity.
    rewrite (no_slash_no_closer pos Hs). reflexivity.
  - unfold endsWith. rewrite !rev_app_distr. reflexivity.
Qed.

(** A source taken from a map is written into the comment as it is: one
    that holds the closer ends the comment early. *)
Example comment_of_source_with_closer :
  count_occurrences comment_closer
    (comment_of (Some (str "a.ts */ DROP TABLE t; /*:1:1"))) = 2%nat.
Proof. reflexivity. Qed.

(** X18.  Two positions that are not empty have the same comment only if
    they are the same position, so the guard of the object branch, which
    looks for the comment, is passed by any other non-empty position; the
    empty position and no position share the comment of [unknown]. *)
Theorem comment_of_injective (p q : jsstring) :
  (p <> [] -> q <> [] ->
   comment_of (Some p) = comment_of (Some q) -> p = q) /\
  comment_of (Some []) = comment_of None /\
  comment_of (Some (str "unknown")) = comment_of None.
Proof.
  split; [|split; reflexivity].
  intros Hp Hq H. rewrite !comment_of_shape in H.
  apply app_inv_head in H. apply app_inv_tail in H.
  destruct p, q; try congruence. exact H.
Qed.

(* ===================================================================== *)
(** ** Further properties: payloads, and the cost of the cache *)
(* ===================================================================== *)

(** X19.  Only a string is ever replaced: when [annotate] returns, the
    values are those it was given; a string comes back as a new string and
    the state is untouched; every other payload comes back as the very
    value that went in, and only for an object can the state have
    changed. *)
Theorem annotate_keeps_payload
    (comment : jsstring) (text values : value) (s : state)
    (res : value * value) (s' : state) :
  annotate comment text values s = (Return res, s') ->
  snd res = values /\
  match text with
  | VString q => fst res = VString (annotate_string comment q) /\ s' = s
  | VObject _ => fst res = text
  | _ => fst res = text /\ s' = s
  end.
Proof.
  intros Hrun.
  destruct text;
    try (injection Hrun as <- <-; repeat split; fail);
    try discriminate Hrun.
  destruct (annotate_object_cases _ _ _ _ _ _ Hrun)
    as [[-> Hr] | (t & Ht & Hne & Hi)].
  - destruct Hr as [[= ->] | Hr]; [split; reflexivity | discriminate Hr].
  - rewrite (annotate_object_fresh _ _ _ _ _ Ht Hne Hi) in Hrun.
    injection Hrun as <- <-. split; reflexivity.
Qed.

Lemma annotate_keeps_payload_witness :
  snd (VNumber 42, VObject 2) = VObject 2 /\
  fst (VNumber 42, VObject 2) = VNumber 42 /\ initial_state = initial_state.
Proof.
  exact (annotate_keeps_payload (comment_of None) (VNumber 42) (VObject 2)
           initial_state (VNumber 42, VObject 2) initial_state eq_refl).
Defined.

Lemma exists_calls_app a b :
  exists_calls (a ++ b) = (exists_calls a + exists_calls b)%nat.
Proof.
  induction a as [|ev a IH]; [reflexivity|].
  destruct ev; simpl; rewrite IH; reflexivity.
Qed.

Lemma read_calls_app a b :
  read_calls (a ++ b) = (read_calls a + read_calls b)%nat.
Proof.
  induction a as [|ev a IH]; [reflexivity|].
  destruct ev; simpl; rewrite IH; reflexivity.
Qed.

Lemma parse_calls_app a b :
  parse_calls (a ++ b) = (parse_calls a + parse_calls b)%nat.
Proof.
  induction a as [|ev a IH]; [reflexivity|].
  destruct ev; simpl; rewrite IH; reflexivity.
Qed.

(** One load: an existence test exactly when a cache entry is made, and
    then at most one read and at most one parse. *)
Lemma loadSourceMapForFile_cost e p s :
  let s1 := snd (loadSourceMapForFile e p s) in
  (exists_calls (log s1) + size (sourceMapCache s)
   = exists_calls (log s) + size (sourceMapCache s1))%nat /\
  (read_calls (log s1) + size (sourceMapCache s)
   <= read_calls (log s) + size (sourceMapCache s1))%nat /\
  (parse_calls (log s1) + size (sourceMapCache s)
   <= parse_calls (log s) + size (sourceMapCache s1))%nat.
Proof.
  cbv zeta. destruct (sourceMapCache s !! p) as [x|] eqn:Hp.
  - rewrite (loadSourceMapForFile_hit _ _ _ _ Hp). cbn [snd]. lia.
  - unfold loadSourceMapForFile. unfold_M. rewrite Hp. simpl.
    destruct (existsSync e (p ++ str ".map")); simpl.
    + destruct (readFileSync e (p ++ str ".map")) as [raw|]; simpl.
      * destruct (newSourceMapConsumer e raw); simpl;
          rewrite !exists_calls_app, !read_calls_app, !parse_calls_app,
            (map_size_insert_None _ _ _ Hp); simpl; lia.
      * rewrite !exists_calls_app, !read_calls_app, !parse_calls_app,
          (map_size_insert_None _ _ _ Hp); simpl; lia.
    + rewrite !exists_calls_app, !read_calls_app, !parse_calls_app,
        (map_size_insert_None _ _ _ Hp); simpl; lia.
Qed.

(** X20.  The cost of the cache when loads run one after another, each
    completed before the next starts: over any such sequence the file
    system is asked for a map file exactly once per cache entry made, and
    files are read and parsed at most that often, however many loads there
    are and whatever they find.  (Loads that overlap are another matter:
    the cache is written on line 29, after the [await] of line 28, so a
    load of the same path that starts in between repeats the work.) *)
Theorem run_loads_cost (calls : list (env * jsstring)) (s : state) :
  let s1 := run_loads calls s in
  (exists_calls (log s1) + size (sourceMapCache s)
   = exists_calls (log s) + size (sourceMapCache s1))%nat /\
  (read_calls (log s1) + size (sourceMapCache s)
   <= read_calls (log s) + size (sourceMapCache s1))%nat /\
  (parse_calls (log s1) + size (sourceMapCache s)
   <= parse_calls (log s) + size (sourceMapCache s1))%nat.
Proof.
  revert s. induction calls as [|[e p] calls IH]; intros s.
  - cbn [run_loads]. lia.
  - cbn [run_loads].
    pose proof (loadSourceMapForFile_cost e p s) as Hone.
    specialize (IH (snd (loadSourceMapForFile e p s))).
    cbv zeta in *. lia.
Qed.

(** X21.  A first query from a file with a usable map next to it is
    resolved through that map: when nothing is cached for the file of a
    usable frame, the map file exists, is read and is parsed, and the
    parsed consumer names a non-empty source for the position,
    [resolveOriginalPosition] returns the original position; the consumer
    is in the cache afterwards, and the file system was asked once for the
    existence, the content and the parse. *)
Theorem resolveOriginalPosition_first_load_mapped
    (e : env) (s : state) (fr : Frame) (ln col : Z) (rawMap : jsstring)
    (c : consumer) (p : original_position) (src : jsstring) :
  frame_usable (Some fr) = true ->
  line fr = Some ln -> column fr = Some col ->
  sourceMapCache s !! fileName fr = None ->
  existsSync e (map_path (fileName fr)) = true ->
  readFileSync e (map_path (fileName fr)) = Return rawMap ->
  newSourceMapConsumer e rawMap = Return c ->
  originalPositionFor c ln col = Return (Some p) ->
  op_source p = Some src ->
  src <> [] ->
  exists s1,
    resolveOriginalPosition e (Some fr) s
    = (Return (Some (src ++ colon ++ show (op_line p)
                         ++ colon ++ show (op_column p))), s1) /\
    sourceMapCache s1 = <[fileName fr := Some c]> (sourceMapCache s) /\
    log s1 = log s ++ [EExists (map_path (fileName fr));
                       ERead (map_path (fileName fr));
                       EParse rawMap].
Proof.
  intros Hu Hl Hc Hmiss Hex Hrd Hparse Hpos Hsrc Hne.
  destruct (frame_usable_inv fr Hu) as (Hf & ln' & col' & Hl' & Hc' & Hln & Hcol).
  assert (ln' = ln) as -> by congruence.
  assert (col' = col) as -> by congruence.
  rewrite (resolveOriginalPosition_after_load e fr ln col) by assumption.
  unfold loadSourceMapForFile. unfold map_path in *. unfold_M.
  rewrite Hmiss. cbv beta iota zeta. rewrite Hex.
  cbv beta iota zeta delta [negb]. rewrite Hrd. cbv beta iota zeta.
  rewrite Hparse. unfold modify. cbv beta iota zeta.
  eexists. split.
  - unfold position_for, named_source.
    rewrite Hpos, Hsrc. destruct src; [congruence|]. reflexivity.
  - split; [reflexivity|].
    cbn [log sourceMapCache prepareStackTrace heap].
    rewrite <- !app_assoc. reflexivity.
Qed.

Lemma resolveOriginalPosition_first_load_mapped_witness :
  exists s1,
    resolveOriginalPosition mapped_env (Some app_js_frame) initial_state
    = (Return (Some (str "app.ts:5:10")), s1) /\
    sourceMapCache s1 = <[str "/srv/app/app.js" := Some app_ts_consumer]> ∅ /\
    log s1 = [EExists (str "/srv/app/app.js.map");
              ERead (str "/srv/app/app.js.map");
              EParse (str "{...}")].
Proof.
  apply (resolveOriginalPosition_first_load_mapped mapped_env initial_state
           app_js_frame 7 3 (str "{...}") app_ts_consumer
           {| op_source := Some (str "app.ts"); op_line := Some 5%Z;
              op_column := Some 10%Z |}
           (str "app.ts")); try reflexivity.
  discriminate.
Defined.
